(** * feedi: sync, ranking and query engine

    A shallow embedding of [feedi/models.py], [feedi/tasks.py] and
    [feedi/parser.py].  Tables are lists of rows in storage order, a row maps
    column names to dynamically typed values (as SQLite stores them), Python
    dicts are finite maps with string keys, and Python exceptions are the
    [Raise] branch of a small error monad. *)

From stdpp Require Import gmap strings list fin_maps sorting.
From Stdlib Require Import ZArith Lia.

Open Scope Z_scope.

(** ** Exceptions and the error monad *)

Inductive exn :=
| ValueError | KeyError | IndexError | TypeError
| CompileError | IntegrityError | RequestException | NotFound
| NotImplementedError | AttributeError.

Inductive result (A : Type) :=
| Ok (a : A)
| Raise (e : exn).
Arguments Ok {A} a.
Arguments Raise {A} e.

Global Instance result_ret : MRet result := fun _ a => Ok a.
Global Instance result_bind : MBind result := fun _ _ k m =>
  match m with
  | Ok a => k a
  | Raise e => Raise e
  end.


(** ** Values, rows and tables *)

(** What a cell or a dict entry holds: [None], an [int], a [str] or a
    [datetime] (microseconds on the time line). *)
Inductive value :=
| VNull
| VInt (z : Z)
| VStr (s : string)
| VTime (t : Z).

Global Instance value_eq_dec : EqDecision value.
Proof. solve_decision. Defined.

Definition timedelta_days (d : Z) : Z := d * 86400000000.
Definition timedelta_hours (h : Z) : Z := h * 3600000000.
Definition timedelta_minutes (m : Z) : Z := m * 60000000.

(** A row: column name to value; a column that is not set is NULL. *)
Abbreviation row := (gmap string value).

Definition col (r : row) (c : string) : value := default VNull (r !! c).

Definition is_null (r : row) (c : string) : bool :=
  bool_decide (col r c = VNull).

(** A TIMESTAMP column read as a time: NULL when it holds none. *)
Definition ts (r : row) (c : string) : option Z :=
  match col r c with VTime t => Some t | _ => None end.

(** SQL [=]: a comparison with NULL is unknown, which a filter or a join
    treats as false. *)
Definition sql_eq (a b : value) : bool :=
  match a, b with
  | VNull, _ | _, VNull => false
  | _, _ => bool_decide (a = b)
  end.

(** Python truthiness of an optional string argument ([None] and the empty
    string are falsy). *)
Definition truthy_str (o : option string) : option string :=
  match o with
  | Some s => if bool_decide (s = EmptyString) then None else Some s
  | None => None
  end.

Record database := {
  feeds : list row;
  entries : list row
}.

(** ** ORDER BY: a stable insertion sort *)

Section Sort.
Context {A : Type} (le : A -> A -> bool).

Fixpoint insert_sorted (x : A) (l : list A) : list A :=
  match l with
  | [] => [x]
  | y :: l' => if le x y then x :: l else y :: insert_sorted x l'
  end.

Definition order_by (l : list A) : list A := foldr insert_sorted [] l.
End Sort.

(** ** models.Feed.freq_bucket *)

Module Feed.
Definition freq_bucket (count : Z) : Z :=
  if count <=? 2 then 1
  else if count <? 5 then 2
  else if count <? 15 then 3
  else if count <? 45 then 3
  else 5.
End Feed.

(** ** tasks.set_frequency_ranks *)

(** The if/elif chain in the body of the loop of [set_frequency_ranks]. *)
Definition rank_of_count (count : Z) : Z :=
  if count <=? 2 then 1
  else if count <? 5 then 2
  else if count <? 15 then 3
  else if count <? 45 then 3
  else if count <? 300 then 4
  else 5.

(** [remote_updated >= since], false on NULL. *)
Definition updated_since (since : Z) (e : row) : bool :=
  match ts e "remote_updated" with
  | Some t => since <=? t
  | None => false
  end.

(** [count(Entry.id)] over the entries joined to feed [f] (on
    [entries.feed_id = feeds.id]) and updated since [since]; [id] is the
    primary key, never NULL, so every joined row counts. *)
Definition joined_since (since : Z) (f e : row) : bool :=
  sql_eq (col f "id") (col e "feed_id") && updated_since since e.

Definition recent_count (since : Z) (es : list row) (f : row) : Z :=
  Z.of_nat (length (filter (fun e => joined_since since f e = true) es)).

(** The grouped query: one [(feed, count)] per feed that has a joined row,
    ordered by the count. *)
Definition feed_counts (since : Z) (d : database) : list (row * Z) :=
  order_by (fun a b => a.2 <=? b.2)
    (filter (fun p => 0 < p.2)
       (map (fun f => (f, recent_count since (entries d) f)) (feeds d))).

(** Modelled from the spec: the [frequency_rank] attribute of a feed, which
    the [Feed] class of [models.py] does not declare (section 3: "derived
    frequency rank (nullable until computed)").  The assignment
    [feed.frequency_rank = rank] writes it on the row with the feed's primary
    key. *)
Definition set_frequency_rank (f : row) (rank : Z) (fs : list row) : list row :=
  map (fun r => if bool_decide (col r "id" = col f "id")
                then <["frequency_rank" := VInt rank]> r else r) fs.

Definition set_frequency_ranks (now : Z) (d : database) : database :=
  let two_weeks_ago := now - timedelta_days 14 in
  {| feeds := foldl (fun fs p => set_frequency_rank p.1 (rank_of_count p.2) fs)
                    (feeds d) (feed_counts two_weeks_ago d);
     entries := entries d |}.

(** ** The entries table and its upsert statement *)

Inductive coltype := TInteger | TString | TTimestamp.

Record column := {
  c_name : string;
  c_type : coltype;
  c_nullable : bool
}.

(** The columns of [models.Entry].  [id] is the integer primary key: an
    insert may leave it out, the engine then assigns the next rowid. *)
Definition entry_schema : list column :=
  [ {| c_name := "id"; c_type := TInteger; c_nullable := true |};
    {| c_name := "feed_id"; c_type := TInteger; c_nullable := true |};
    {| c_name := "remote_id"; c_type := TString; c_nullable := false |};
    {| c_name := "title"; c_type := TString; c_nullable := false |};
    {| c_name := "username"; c_type := TString; c_nullable := true |};
    {| c_name := "user_url"; c_type := TString; c_nullable := true |};
    {| c_name := "avatar_url"; c_type := TString; c_nullable := true |};
    {| c_name := "body"; c_type := TString; c_nullable := true |};
    {| c_name := "entry_url"; c_type := TString; c_nullable := true |};
    {| c_name := "content_url"; c_type := TString; c_nullable := true |};
    {| c_name := "media_url"; c_type := TString; c_nullable := true |};
    {| c_name := "created"; c_type := TTimestamp; c_nullable := false |};
    {| c_name := "updated"; c_type := TTimestamp; c_nullable := false |};
    {| c_name := "remote_created"; c_type := TTimestamp; c_nullable := false |};
    {| c_name := "remote_updated"; c_type := TTimestamp; c_nullable := false |};
    {| c_name := "deleted"; c_type := TTimestamp; c_nullable := true |};
    {| c_name := "favorited"; c_type := TTimestamp; c_nullable := true |};
    {| c_name := "pinned"; c_type := TTimestamp; c_nullable := true |};
    {| c_name := "raw_data"; c_type := TString; c_nullable := true |};
    {| c_name := "reblogged_by"; c_type := TString; c_nullable := true |} ].

(** The user-set markers. *)
Definition marker_columns : list string := ["deleted"; "favorited"; "pinned"].

Fixpoint find_column (schema : list column) (c : string) : option column :=
  match schema with
  | [] => None
  | k :: schema' =>
      if bool_decide (c_name k = c) then Some k else find_column schema' c
  end.

(** A bound value fits the column's type; [None] binds as NULL. *)
Definition accepts (ty : coltype) (v : value) : bool :=
  match ty, v with
  | _, VNull => true
  | TInteger, VInt _ => true
  | TString, VStr _ => true
  | TTimestamp, VTime _ => true
  | _, _ => false
  end.

Definition column_known (schema : list column) (c : string) (v : value) : Prop :=
  is_Some (find_column schema c).

Definition column_accepts (schema : list column) (c : string) (v : value) : Prop :=
  match find_column schema c with
  | Some k => accepts (c_type k) v = true
  | None => True
  end.

Global Instance column_accepts_dec schema c v : Decision (column_accepts schema c v).
Proof. unfold column_accepts. destruct (find_column schema c); apply _. Defined.

(** NOT NULL holds on a row. *)
Definition not_null_ok (schema : list column) (r : row) : bool :=
  forallb (fun k => c_nullable k || negb (is_null r (c_name k))) schema.

(** The Python-side column defaults ([created] and [updated] default to
    [utcnow] when the statement runs). *)
Definition entry_defaults (t_exec : Z) : row :=
  {[ "created" := VTime t_exec; "updated" := VTime t_exec ]}.

(** The row a statement conflicts with on the unique constraint
    [(feed_id, remote_id)]; NULLs never conflict. *)
Definition same_key (vals r : row) : bool :=
  sql_eq (col r "feed_id") (col vals "feed_id")
  && sql_eq (col r "remote_id") (col vals "remote_id").

Definition id_taken (v : value) (tbl : list row) : bool :=
  existsb (fun r => sql_eq (col r "id") v) tbl.

Definition row_id (r : row) : Z :=
  match col r "id" with VInt z => z | _ => 0 end.

(** The next rowid: one more than the largest in the table. *)
Definition next_id (tbl : list row) : Z :=
  1 + foldr (fun r m => Z.max (row_id r) m) 0 tbl.

(** The statement [insert(Entry)] with the dict [values] as its values and
    [on_conflict_do_update] on [(feed_id, remote_id)] with [set_=values], run
    at time [t_exec].  In order: an unknown column name is refused when
    the statement is compiled, a value that does not fit its column when it is
    bound, then the engine checks NOT NULL and the primary key on the proposed
    row; a conflict on [(feed_id, remote_id)] turns the insert into an update
    that sets exactly the columns of [values] on the conflicting row (the
    unique constraint leaves at most one). *)
Definition upsert (schema : list column) (t_exec : Z) (values : row)
    (tbl : list row) : result (list row) :=
  if negb (bool_decide (map_Forall (column_known schema) values)) then
    Raise CompileError
  else if negb (bool_decide (map_Forall (column_accepts schema) values)) then
    Raise TypeError
  else
    let proposed := values ∪ entry_defaults t_exec in
    if negb (not_null_ok schema proposed) then
      Raise IntegrityError
    else if id_taken (col values "id") tbl then Raise IntegrityError
    else if existsb (same_key values) tbl then
      if bool_decide (values !! "id" = Some VNull) then Raise IntegrityError
      else Ok (map (fun r => if same_key values r then values ∪ r else r) tbl)
    else
      let new_id := match col values "id" with
                    | VNull => VInt (next_id tbl)
                    | v => v
                    end in
      Ok (tbl ++ [<["id" := new_id]> proposed]).

(** ** tasks.upsert_entries *)

(** The loop of [upsert_entries]: one statement and one commit per entry, the
    [k]-th statement running at time [clock k].  The result is the committed
    table together with the exception that stopped the loop, if any. *)
Fixpoint upsert_entries_from (clock : nat -> Z) (k : nat) (utcnow : Z)
    (feed_id : Z) (entries_values : list row) (tbl : list row)
    : list row * option exn :=
  match entries_values with
  | [] => (tbl, None)
  | values :: rest =>
      let values := <["feed_id" := VInt feed_id]>
                      (<["updated" := VTime utcnow]> values) in
      match upsert entry_schema (clock k) values tbl with
      | Ok tbl' => upsert_entries_from clock (S k) utcnow feed_id rest tbl'
      | Raise e => (tbl, Some e)
      end
  end.

Definition upsert_entries (clock : nat -> Z) (utcnow : Z) (feed_id : Z)
    (entries_values : list row) (tbl : list row) : list row * option exn :=
  upsert_entries_from clock 0 utcnow feed_id entries_values tbl.

(** The columns a canonical entry carries: those derived from the source. *)
Definition source_columns : list string :=
  [ "remote_id"; "title"; "username"; "user_url"; "avatar_url"; "body";
    "entry_url"; "content_url"; "media_url"; "remote_created";
    "remote_updated"; "raw_data"; "reblogged_by" ].

Definition required_columns : list string :=
  [ "remote_id"; "title"; "remote_created"; "remote_updated" ].

(** A valid canonical entry: a dict over the source-derived columns, each
    value of its column's type, with the required ones set. *)
Definition canonical (e : row) : Prop :=
  map_Forall (fun c v => c ∈ source_columns /\ column_accepts entry_schema c v) e
  /\ Forall (fun c => col e c <> VNull) required_columns.

Definition key_matches (feed_id : Z) (remote_id : value) (r : row) : bool :=
  sql_eq (col r "feed_id") (VInt feed_id) && sql_eq (col r "remote_id") remote_id.

(** The rows stored for the key [(feed_id, remote_id)]. *)
Definition rows_with_key (feed_id : Z) (remote_id : value) (tbl : list row)
    : list row :=
  filter (fun r => key_matches feed_id remote_id r = true) tbl.

(** The unique constraint on [(feed_id, remote_id)] holds in a table. *)
Definition unique_keys (tbl : list row) : Prop :=
  forall feed_id remote_id,
    (length (rows_with_key feed_id remote_id tbl) <= 1)%nat.

(** ** models.Entry: the filtered query and the three retrievals *)

(** The keyword arguments of [_filtered_query]; each defaults to [None]. *)
Record filters := {
  f_deleted : option bool;
  f_favorited : option bool;
  f_feed_name : option string;
  f_username : option string;
  f_folder : option string
}.

Definition truthy_bool (o : option bool) : bool :=
  match o with Some true => true | _ => false end.

(** [cls.feed.has(column=v)]: some feed with the entry's [feed_id] has the
    value [v] in that column. *)
Definition feed_has (d : database) (c : string) (v : string) (e : row) : bool :=
  existsb (fun f => sql_eq (col f "id") (col e "feed_id")
                    && sql_eq (col f c) (VStr v)) (feeds d).

Definition where_filters (d : database) (fl : filters) (e : row) : bool :=
  (if truthy_bool (f_deleted fl) then negb (is_null e "deleted")
   else is_null e "deleted")
  && (if truthy_bool (f_favorited fl) then negb (is_null e "favorited") else true)
  && match truthy_str (f_feed_name fl) with
     | Some n => feed_has d "name" n e
     | None => true
     end
  && match truthy_str (f_folder fl) with
     | Some n => feed_has d "folder" n e
     | None => true
     end
  && match truthy_str (f_username fl) with
     | Some u => sql_eq (col e "username") (VStr u)
     | None => true
     end.

(** The rows [_filtered_query] selects, in storage order. *)
Definition filtered_query (d : database) (fl : filters) : list row :=
  filter (fun e => where_filters d fl e = true) (entries d).

(** [ORDER BY c DESC] on a TIMESTAMP column: later first, NULLs last. *)
Definition desc_le (a b : option Z) : bool :=
  match a, b with
  | _, None => true
  | None, Some _ => false
  | Some x, Some y => y <=? x
  end.

Definition by_desc (c : string) (x y : row) : bool := desc_le (ts x c) (ts y c).

(** A select statement once its FROM, WHERE and ORDER BY are fixed: the rows
    in order, and the LIMIT and OFFSET clauses.  [limit] and [offset] replace
    the clause the statement already has. *)
Record select (A : Type) := {
  sel_rows : list A;
  sel_limit : option nat;
  sel_offset : nat
}.
Arguments sel_rows {A} _.
Arguments sel_limit {A} _.
Arguments sel_offset {A} _.

Definition from_rows {A} (l : list A) : select A :=
  {| sel_rows := l; sel_limit := None; sel_offset := 0%nat |}.

Definition limit {A} (n : nat) (q : select A) : select A :=
  {| sel_rows := sel_rows q; sel_limit := Some n; sel_offset := sel_offset q |}.

Definition offset {A} (n : nat) (q : select A) : select A :=
  {| sel_rows := sel_rows q; sel_limit := sel_limit q; sel_offset := n |}.

Definition execute {A} (q : select A) : list A :=
  let l := drop (sel_offset q) (sel_rows q) in
  match sel_limit q with
  | Some n => take n l
  | None => l
  end.

(** [db.paginate(query, page=page)] of Flask-SQLAlchemy, as far as the items
    of the page go: it runs the statement with [limit(per_page)] and
    [offset((page - 1) * per_page)], and aborts with 404 on a page or page
    size below 1 and on an empty page other than the first.  [per_page] is
    the page size the library resolves (the request's argument, or its
    default). *)
Definition paginate {A} (per_page : nat) (q : select A) (page : nat)
    : result (list A) :=
  if (page <? 1)%nat || (per_page <? 1)%nat then Raise NotFound
  else
    let items := execute (offset ((page - 1) * per_page)%nat (limit per_page q)) in
    match items with
    | [] => if bool_decide (page = 1%nat) then Ok [] else Raise NotFound
    | _ => Ok items
    end.

Module Entry.

Definition select_pinned (d : database) (fl : filters) : list row :=
  execute (from_rows
    (order_by (by_desc "pinned")
       (filter (fun e => negb (is_null e "pinned") = true) (filtered_query d fl)))).

(** [cls.remote_updated < older_than], false on NULL. *)
Definition updated_before (t : Z) (e : row) : bool :=
  match ts e "remote_updated" with
  | Some u => u <? t
  | None => false
  end.

(** The statement of [select_page_chronologically] before its LIMIT.
    [older_than] is a [datetime] or [None]; a [datetime] is always truthy. *)
Definition chronological (d : database) (older_than : option Z) (fl : filters)
    : list row :=
  let query := filtered_query d fl in
  let query := match older_than with
               | Some t => filter (fun e => updated_before t e = true) query
               | None => query
               end in
  order_by (by_desc "remote_updated") query.

Definition select_page_chronologically (d : database) (lim : nat)
    (older_than : option Z) (fl : filters) : list row :=
  execute (limit lim (from_rows (chronological d older_than fl))).

(** The rank subquery joined to an entry through its feed ([id] is the
    primary key of feeds: the first feed with the entry's [feed_id] is the
    only one).  A feed without an entry updated since [two_weeks_ago] has no
    row in the subquery. *)
Definition subquery_rank (d : database) (two_weeks_ago : Z) (e : row)
    : option Z :=
  match find (fun f => sql_eq (col f "id") (col e "feed_id")) (feeds d) with
  | Some f =>
      let count := recent_count two_weeks_ago (entries d) f in
      if 0 <? count then Some (Feed.freq_bucket count) else None
  | None => None
  end.

(** The first ORDER BY term:
    [(start_at > remote_updated) & (remote_updated < last_48_hours)]. *)
Definition older_bucket (start_at : Z) (e : row) : bool :=
  let last_48_hours := start_at - timedelta_hours 48 in
  match ts e "remote_updated" with
  | Some u => (u <? start_at) && (u <? last_48_hours)
  | None => false
  end.

(** The ORDER BY of the frequency query on the joined rows (entry, rank):
    the 48 hours bucket, then the rank, then [remote_updated] descending. *)
Definition by_frequency (start_at : Z) (x y : row * Z) : bool :=
  if bool_decide (older_bucket start_at x.1 = older_bucket start_at y.1) then
    if bool_decide (x.2 = y.2) then by_desc "remote_updated" x.1 y.1
    else x.2 <? y.2
  else negb (older_bucket start_at x.1).

(** The statement of [select_page_by_frequency] before LIMIT and
    pagination: the filtered entries inner-joined to their feed's row of the
    rank subquery, in order. *)
Definition frequency_ordered (d : database) (now start_at : Z) (fl : filters)
    : list (row * Z) :=
  let two_weeks_ago := now - timedelta_days 14 in
  order_by (by_frequency start_at)
    (omap (fun e => (fun r => (e, r)) <$> subquery_rank d two_weeks_ago e)
          (filtered_query d fl)).

Definition select_page_by_frequency (d : database) (now : Z) (per_page : nat)
    (lim : nat) (start_at : Z) (page : nat) (fl : filters) : result (list row) :=
  match paginate per_page
          (limit lim (from_rows (frequency_ordered d now start_at fl))) page with
  | Ok items => Ok (fst <$> items)
  | Raise e => Raise e
  end.

End Entry.

(** ** parser.py: the feed document and the libraries it is read with *)

(** Sequencing of computations that may raise. *)
Definition and_then {A B} (m : result A) (k : A -> result B) : result B :=
  match m with
  | Ok a => k a
  | Raise e => Raise e
  end.

(** Subscripting: a missing key raises [KeyError]. *)
Definition getitem {A} (o : option A) : result A :=
  match o with
  | Some a => Ok a
  | None => Raise KeyError
  end.

(** [l[0]]: an empty list raises [IndexError]. *)
Definition first_item {A} (l : list A) : result A :=
  match l with
  | a :: _ => Ok a
  | [] => Raise IndexError
  end.

(** [p] is a prefix of [s]. *)
Fixpoint starts_with (p s : string) : bool :=
  match p, s with
  | EmptyString, _ => true
  | String a p', String b s' => bool_decide (a = b) && starts_with p' s'
  | String _ _, EmptyString => false
  end.

(** Python's [sub in s] on strings. *)
Fixpoint contains (sub s : string) : bool :=
  starts_with sub s
  || match s with
     | EmptyString => false
     | String _ s' => contains sub s'
     end.

(** [str.lower] on the ASCII letters. *)
Definition lower_ascii (a : Ascii.ascii) : Ascii.ascii :=
  let n := Ascii.nat_of_ascii a in
  if (65 <=? n)%nat && (n <=? 90)%nat then Ascii.ascii_of_nat (n + 32) else a.

Fixpoint lower (s : string) : string :=
  match s with
  | EmptyString => EmptyString
  | String a s' => String (lower_ascii a) (lower s')
  end.

Record struct_time := {
  tm_year : Z; tm_mon : Z; tm_mday : Z;
  tm_hour : Z; tm_min : Z; tm_sec : Z;
  tm_wday : Z; tm_yday : Z; tm_isdst : Z
}.

(** An item of [media_thumbnail] or [media_content]. *)
Record media := {
  m_url : option string;
  m_type : option string
}.

(** A raw entry of a parsed feed: for each key the parser reads, the value
    under it, or [None] when the entry does not have the key.  The entry is
    read as a plain mapping: it has a key or it does not.  [e_source_icon] is
    [entry['source']['icon']] when both keys are there. *)
Record raw_entry := {
  e_link : option string;
  e_summary : option string;
  e_title : option string;
  e_author : option string;
  e_source_icon : option string;
  e_media_thumbnail : option (list media);
  e_media_content : option (list media);
  e_id : option string;
  e_published_parsed : option struct_time;
  e_updated_parsed : option struct_time
}.

(** The parsed feed: the keys of [feed['feed']] the parsers read, the
    top-level [updated_parsed], and the entries. *)
Record feed_data := {
  fd_link : option string;
  fd_generator : option string;
  fd_title : option string;
  fd_icon : option string;
  fd_webfeeds_icon : option string;
  fd_updated_parsed : option struct_time;
  fd_entries : list raw_entry
}.

(** An icon found by the [favicon] package. *)
Record icon := {
  i_format : string;
  i_url : string
}.

(** The libraries and the network the module calls: the markup parser
    ([BeautifulSoup] with the tree operations the parsers use), [requests],
    [feedparser], [favicon] and the clock conversions of [time] and
    [datetime]. *)
Record env := {
  soup : Type;
  BeautifulSoup : string -> soup;
  (** [for tag in soup('img'): tag.decompose()] *)
  decompose_imgs : soup -> soup;
  (** [soup.p], and [str(soup.p.extract())] with the tree that is left *)
  extract_p : soup -> option (string * soup);
  (** [soup.img], and its [src] attribute when it has one *)
  soup_img : soup -> option (option string);
  (** [soup.find("meta", property=p, content=True)], its [content] *)
  find_meta : soup -> string -> option string;
  (** [requests.head(url).ok] *)
  requests_head_ok : string -> result bool;
  (** [requests.get(url).content] *)
  requests_get : string -> result string;
  feedparser_parse : string -> result feed_data;
  favicon_get : string -> result (list icon);
  time_mktime : struct_time -> result Z;
  datetime_fromtimestamp : Z -> result Z
}.

Definition to_datetime (E : env) (st : struct_time) : result Z :=
  and_then (time_mktime E st) (datetime_fromtimestamp E).

(** ** parser.py: the parser classes *)

Inductive parser_cls :=
| BaseParser
| LinkAggregatorParser
| MastodonUserParser
| GithubFeedParser
| GoodreadsFeedParser.

Global Instance parser_cls_eq_dec : EqDecision parser_cls.
Proof. solve_decision. Defined.

Definition FIELDS : list string :=
  [ "title"; "title_url"; "avatar_url"; "username"; "body";
    "media_url"; "remote_id"; "remote_created"; "remote_updated" ].

Definition KNOWN_AGGREGATORS : list string :=
  [ "lobste.rs"; "reddit.com"; "news.ycombinator.com" ].

(** [cls.is_compatible(feed_url, feed_data)]. *)
Definition is_compatible (cls : parser_cls) (feed_url : string)
    (feed : feed_data) : result bool :=
  match cls with
  | BaseParser => Raise NotImplementedError
  | LinkAggregatorParser =>
      and_then (getitem (fd_link feed)) (fun link =>
      Ok (existsb (fun domain => contains domain link) KNOWN_AGGREGATORS))
  | MastodonUserParser =>
      Ok (contains "mastodon" (lower (default EmptyString (fd_generator feed))))
  | GithubFeedParser =>
      Ok (contains "github.com" feed_url && contains "private.atom" feed_url)
  | GoodreadsFeedParser =>
      Ok (contains "goodreads.com" feed_url && contains "/home/index_rss" feed_url)
  end.

(** [BaseParser.__subclasses__()]: the direct subclasses, in the order the
    module defines them. *)
Definition subclasses : list parser_cls :=
  [ LinkAggregatorParser; MastodonUserParser; GithubFeedParser;
    GoodreadsFeedParser ].

(** The selection loop of [sync_feed]: the first compatible class, or
    [BaseParser]. *)
Fixpoint first_compatible (classes : list parser_cls) (feed_url : string)
    (feed : feed_data) : result parser_cls :=
  match classes with
  | [] => Ok BaseParser
  | cls :: rest =>
      and_then (is_compatible cls feed_url feed) (fun ok =>
      if ok then Ok cls else first_compatible rest feed_url feed)
  end.

Definition select_parser (feed_url : string) (feed : feed_data)
    : result parser_cls :=
  first_compatible subclasses feed_url feed.

Definition str_or_none (o : option string) : value :=
  match o with
  | Some s => VStr s
  | None => VNull
  end.

Definition parse_title (cls : parser_cls) (feed : feed_data) (entry : raw_entry)
    : result value :=
  match cls with
  | MastodonUserParser => and_then (getitem (fd_title feed)) (fun t => Ok (VStr t))
  | _ => and_then (getitem (e_title entry)) (fun t => Ok (VStr t))
  end.

Definition parse_title_url (entry : raw_entry) : result value :=
  and_then (getitem (e_link entry)) (fun l => Ok (VStr l)).

Definition parse_username (entry : raw_entry) : result value :=
  Ok (str_or_none (e_author entry)).

(** [entry['media_thumbnail'][0]['url']]. *)
Definition first_thumbnail_url (entry : raw_entry) : result value :=
  and_then (getitem (e_media_thumbnail entry)) (fun thumbs =>
  and_then (first_item thumbs) (fun thumb =>
  and_then (getitem (m_url thumb)) (fun url => Ok (VStr url)))).

Definition parse_avatar_url (E : env) (cls : parser_cls) (entry : raw_entry)
    : result value :=
  match cls with
  | GithubFeedParser => first_thumbnail_url entry
  | _ =>
      match truthy_str (e_source_icon entry) with
      | Some url =>
          and_then (requests_head_ok E url) (fun ok =>
          if ok then Ok (VStr url) else Ok VNull)
      | None => Ok VNull
      end
  end.

(** The string of one line feed. *)
Definition newline : string :=
  String (Ascii.Ascii false true false true false false false false) EmptyString.

Definition parse_body (E : env) (cls : parser_cls) (entry : raw_entry)
    : result value :=
  match cls with
  | GithubFeedParser | GoodreadsFeedParser => Ok VNull
  | _ =>
      and_then (getitem (e_summary entry)) (fun summary =>
      let tree := decompose_imgs E (BeautifulSoup E summary) in
      match extract_p E tree with
      | Some (p1, tree') =>
          match extract_p E tree' with
          | Some (p2, _) => Ok (VStr (p1 +:+ newline +:+ p2))
          | None => Ok (VStr p1)
          end
      | None => Ok (VStr EmptyString)
      end)
  end.

Definition parse_media_url (E : env) (cls : parser_cls) (entry : raw_entry)
    : result value :=
  match cls with
  | GithubFeedParser | GoodreadsFeedParser => Ok VNull
  | _ =>
      match e_media_thumbnail entry with
      | Some _ => first_thumbnail_url entry
      | None =>
          let from_summary :=
            and_then (getitem (e_summary entry)) (fun summary =>
            match soup_img E (BeautifulSoup E summary) with
            | Some src => and_then (getitem src) (fun s => Ok (VStr s))
            | None =>
                and_then (getitem (e_link entry)) (fun link =>
                and_then (requests_get E link) (fun content =>
                let page := BeautifulSoup E content in
                match find_meta E page "og:image" with
                | Some c => Ok (VStr c)
                | None => Ok (str_or_none (find_meta E page "twitter:image"))
                end))
            end) in
          match e_media_content entry with
          | Some contents =>
              and_then (first_item contents) (fun c =>
              if bool_decide (m_type c = Some "image") then
                and_then (getitem (m_url c)) (fun url => Ok (VStr url))
              else from_summary)
          | None => from_summary
          end
      end
  end.

Definition parse_remote_id (entry : raw_entry) : result value :=
  and_then (getitem (e_id entry)) (fun i => Ok (VStr i)).

Definition parse_remote_created (E : env) (entry : raw_entry) : result value :=
  and_then (getitem (e_published_parsed entry)) (fun st =>
  and_then (to_datetime E st) (fun t => Ok (VTime t))).

Definition parse_remote_updated (E : env) (entry : raw_entry) : result value :=
  and_then (getitem (e_updated_parsed entry)) (fun st =>
  and_then (to_datetime E st) (fun t => Ok (VTime t))).

(** [parser.parse(entry)] of a parser of class [cls] built on [feed]: the
    fields are computed in the order of [FIELDS]. *)
Definition parse (E : env) (cls : parser_cls) (feed : feed_data)
    (entry : raw_entry) : result row :=
  if bool_decide (e_link entry = None) || bool_decide (e_summary entry = None)
  then Raise ValueError
  else
    and_then (parse_title cls feed entry) (fun title =>
    and_then (parse_title_url entry) (fun title_url =>
    and_then (parse_avatar_url E cls entry) (fun avatar_url =>
    and_then (parse_username entry) (fun username =>
    and_then (parse_body E cls entry) (fun body =>
    and_then (parse_media_url E cls entry) (fun media_url =>
    and_then (parse_remote_id entry) (fun remote_id =>
    and_then (parse_remote_created E entry) (fun remote_created =>
    and_then (parse_remote_updated E entry) (fun remote_updated =>
    Ok (<["title" := title]> (<["title_url" := title_url]>
        (<["avatar_url" := avatar_url]> (<["username" := username]>
        (<["body" := body]> (<["media_url" := media_url]>
        (<["remote_id" := remote_id]> (<["remote_created" := remote_created]>
        (<["remote_updated" := remote_updated]> (∅ : row))))))))))))))))))).

(** ** parser.py: sync_feed and sync_all_feeds *)

Definition UPDATE_AFTER_MINUTES : Z := 5.

(** The loop of [sync_feed] over the entries of the feed: an entry whose
    parsing raises is logged and skipped; the others are upserted (the [k]-th
    statement runs at [clock k]); nothing is committed here. *)
Fixpoint sync_entries (schema : list column) (E : env) (cls : parser_cls)
    (feed : feed_data) (db_feed : row) (clock : nat -> Z) (k : nat)
    (raw : list raw_entry) (tbl : list row) : result (list row) :=
  match raw with
  | [] => Ok tbl
  | entry :: rest =>
      match parse E cls feed entry with
      | Raise _ => sync_entries schema E cls feed db_feed clock k rest tbl
      | Ok values =>
          let values := <["feed_id" := col db_feed "id"]>
                          (<["updated" := col db_feed "last_fetch"]> values) in
          and_then (upsert schema (clock k) values tbl) (fun tbl' =>
          sync_entries schema E cls feed db_feed clock (S k) rest tbl')
      end
  end.

(** [last_fetch] is set and less than [UPDATE_AFTER_MINUTES] before [now]. *)
Definition fetched_recently (db_feed : row) (now : Z) : bool :=
  match ts db_feed "last_fetch" with
  | Some t => now - t <? timedelta_minutes UPDATE_AFTER_MINUTES
  | None => false
  end.

(** [sync_feed(app, db_feed)].  [t1], [t2] and [t3] are the three readings of
    [utcnow] it makes; the result is the feed object and the entries table
    as it leaves them. *)
Definition sync_feed (schema : list column) (E : env) (clock : nat -> Z)
    (t1 t2 t3 : Z) (db_feed : row) (tbl : list row)
    : result (row * list row) :=
  if fetched_recently db_feed t1 then Ok (db_feed, tbl)
  else
    let db_feed := <["last_fetch" := VTime t2]> db_feed in
    match col db_feed "url" with
    | VStr url =>
        and_then (feedparser_parse E url) (fun feed =>
        and_then
          (match fd_updated_parsed feed with
           | Some st =>
               and_then (to_datetime E st) (fun updated =>
               Ok (t3 - updated <? timedelta_minutes UPDATE_AFTER_MINUTES))
           | None => Ok false
           end) (fun up_to_date =>
        if (up_to_date : bool) then Ok (db_feed, tbl)
        else
          and_then (select_parser url feed) (fun cls =>
          and_then (sync_entries schema E cls feed db_feed clock 0
                      (fd_entries feed) tbl) (fun tbl' =>
          Ok (db_feed, tbl')))))
    | _ => Raise TypeError
    end.

(** The loop of [sync_all_feeds] of [parser.py] over the feeds that are left:
    the [i]-th call of [sync_feed] reads the clock at [times i] and runs its
    statements at [clocks i].  [synced] collects the feed objects as the calls
    leave them. *)
Fixpoint sync_feeds (schema : list column) (E : env)
    (clocks : nat -> nat -> Z) (times : nat -> Z * Z * Z) (i : nat)
    (todo synced : list row) (tbl : list row) : result (list row * list row) :=
  match todo with
  | [] => Ok (synced, tbl)
  | db_feed :: rest =>
      and_then (sync_feed schema E (clocks i) (times i).1.1 (times i).1.2
                  (times i).2 db_feed tbl) (fun r =>
      sync_feeds schema E clocks times (S i) rest (synced ++ [r.1]) r.2)
  end.

(** [sync_all_feeds(app)] of [parser.py]: one commit, after the loop; an
    exception leaves the loop and the function before it. *)
Definition sync_all_feeds (schema : list column) (E : env)
    (clocks : nat -> nat -> Z) (times : nat -> Z * Z * Z) (d : database)
    : result database :=
  and_then (sync_feeds schema E clocks times 0 (feeds d) [] (entries d))
    (fun r => Ok {| feeds := r.1; entries := r.2 |}).

(** [detect_feed_icon(app, feed, url)]. *)
Definition detect_feed_icon (E : env) (feed : feed_data) (url : string)
    : result string :=
  let icon_url := match fd_icon feed with
                  | Some i => Some i
                  | None => fd_webfeeds_icon feed
                  end in
  let fallback :=
    and_then (favicon_get E (default url (fd_link feed))) (fun favicons =>
    let icos := filter (fun f => i_format f = "ico") favicons in
    let favicons := match icos with [] => favicons | _ => icos end in
    and_then (first_item favicons) (fun f => Ok (i_url f))) in
  match truthy_str icon_url with
  | Some i =>
      and_then (requests_head_ok E i) (fun ok =>
      if ok then Ok i else fallback)
  | None => fallback
  end.

(** ** tasks.py: the per-feed sync tasks *)

(** The keyword arguments [sync_mastodon_feed] builds for [fetch_toots]. *)
Inductive toots_args :=
| NewerThan (remote_id : value)
| Limit (n : Z).

(** The [feedi.sources] package, which the tasks call and which is not among
    the sources: [rss.fetch(url, last_fetch, skip_older_than, etag=, modified=)]
    returning the entries, the feed data, the etag and the last-modified
    header, [json.dumps] of the feed data, and
    [mastodon.fetch_toots(server_url=, access_token=, ...)]. *)
Record sources := {
  feed_doc : Type;
  rss_fetch : value -> value -> Z -> value -> value
              -> result (list row * feed_doc * value * value);
  json_dumps : feed_doc -> string;
  mastodon_fetch_toots : value -> value -> toots_args -> result (list row)
}.

(** The keys of [app.config] the tasks read. *)
Record config := {
  RSS_SKIP_RECENTLY_UPDATED_MINUTES : Z;
  RSS_SKIP_OLDER_THAN_DAYS : Z;
  MASTODON_FETCH_LIMIT : Z
}.

(** [db.session.scalar(db.select(models.Feed).filter_by(name=feed_name))]. *)
Definition feed_by_name (d : database) (feed_name : string) : option row :=
  find (fun f => sql_eq (col f "name") (VStr feed_name)) (feeds d).

(** [last_fetch] is set and less than the configured minutes before
    [utcnow]. *)
Definition synced_recently (cfg : config) (db_feed : row) (utcnow : Z) : bool :=
  match ts db_feed "last_fetch" with
  | Some t => utcnow - t <? timedelta_minutes (RSS_SKIP_RECENTLY_UPDATED_MINUTES cfg)
  | None => false
  end.

(** The feed object of [sync_rss_feed] after the fetch, as it is merged and
    committed at [t_flush] ([updated] has [onupdate=utcnow]). *)
Definition fetched_feed (S : sources) (utcnow t_flush : Z) (db_feed : row)
    (feed_data : feed_doc S) (etag modified : value) : row :=
  <["updated" := VTime t_flush]>
    (<["raw_data" := VStr (json_dumps S feed_data)]>
       (<["modified_header" := modified]>
          (<["etag" := etag]>
             (<["last_fetch" := VTime utcnow]> db_feed)))).

(** [sync_rss_feed(feed_name)]: [utcnow] is the reading of the clock it makes,
    [utcnow'] the one [upsert_entries] makes.  The result is the committed
    database and the exception the task ends with, if any. *)
Definition sync_rss_feed (S : sources) (cfg : config) (clock : nat -> Z)
    (utcnow t_flush utcnow' : Z) (feed_name : string) (d : database)
    : database * option exn :=
  match feed_by_name d feed_name with
  | None => (d, Some AttributeError)
  | Some db_feed =>
      if synced_recently cfg db_feed utcnow then (d, None)
      else
        match rss_fetch S (col db_feed "url") (col db_feed "last_fetch")
                (RSS_SKIP_OLDER_THAN_DAYS cfg)
                (col db_feed "etag") (col db_feed "modified_header") with
        | Raise x => (d, Some x)
        | Ok (entries_values, feed_data, etag, modified) =>
            let db_feed' := fetched_feed S utcnow t_flush db_feed feed_data
                              etag modified in
            let feeds' := map (fun r => if bool_decide (col r "id" = col db_feed "id")
                                        then db_feed' else r) (feeds d) in
            match col db_feed "id" with
            | VInt feed_id =>
                let r := upsert_entries clock utcnow' feed_id entries_values
                           (entries d) in
                ({| feeds := feeds'; entries := r.1 |}, r.2)
            | _ => ({| feeds := feeds'; entries := entries d |}, Some TypeError)
            end
        end
  end.

(** [db_feed.entries.order_by(models.Entry.remote_updated.desc()).first()]. *)
Definition latest_entry (d : database) (db_feed : row) : option row :=
  head (order_by (by_desc "remote_updated")
          (filter (fun e => sql_eq (col e "feed_id") (col db_feed "id") = true)
                  (entries d))).

Definition mastodon_args (cfg : config) (d : database) (db_feed : row)
    : toots_args :=
  match latest_entry d db_feed with
  | Some e => NewerThan (col e "remote_id")
  | None => Limit (MASTODON_FETCH_LIMIT cfg)
  end.

(** [sync_mastodon_feed(feed_name)]. *)
Definition sync_mastodon_feed (S : sources) (cfg : config) (clock : nat -> Z)
    (utcnow' : Z) (feed_name : string) (d : database) : database * option exn :=
  match feed_by_name d feed_name with
  | None => (d, Some AttributeError)
  | Some db_feed =>
      match mastodon_fetch_toots S (col db_feed "server_url")
              (col db_feed "access_token") (mastodon_args cfg d db_feed) with
      | Raise x => (d, Some x)
      | Ok toots =>
          match col db_feed "id" with
          | VInt feed_id =>
              let r := upsert_entries clock utcnow' feed_id toots (entries d) in
              ({| feeds := feeds d; entries := r.1 |}, r.2)
          | _ => (d, Some TypeError)
          end
      end
  end.

(** The side of the soft-delete partition the [deleted] filter asks for. *)
Definition deleted_side (fl : filters) (e : row) : Prop :=
  if truthy_bool (f_deleted fl) then col e "deleted" <> VNull
  else col e "deleted" = VNull.

(** ** Example data *)

(** A feed with two entries updated in the last two weeks. *)
Definition feed_blog : row :=
  {[ "id" := VInt 1; "name" := VStr "blog"; "type" := VStr "rss" ]}.

Definition entry_at (id feed_id : Z) (rid : string) (t : Z) : row :=
  {[ "id" := VInt id; "feed_id" := VInt feed_id; "remote_id" := VStr rid;
     "title" := VStr "post"; "remote_created" := VTime t;
     "remote_updated" := VTime t ]}.

Definition two_posts : database :=
  {| feeds := [feed_blog];
     entries := [entry_at 1 1 "a" (timedelta_days 20);
                 entry_at 2 1 "b" (timedelta_days 21)] |}.

(** A stored entry the user has favorited, and two versions of the same
    source item. *)
Definition stored_post : row :=
  <["favorited" := VTime 50]> (entry_at 7 1 "a" 10).

Definition post_v1 : row :=
  {[ "remote_id" := VStr "a"; "title" := VStr "first";
     "remote_created" := VTime 10; "remote_updated" := VTime 10 ]}.

Definition post_v2 : row :=
  {[ "remote_id" := VStr "a"; "title" := VStr "second"; "body" := VStr "text";
     "remote_created" := VTime 10; "remote_updated" := VTime 20 ]}.

Definition no_filters : filters :=
  {| f_deleted := None; f_favorited := None; f_feed_name := None;
     f_username := None; f_folder := None |}.

(** Four entries updated at 10, 9, 8 and 7, stored in another order. *)
Definition four_posts : database :=
  {| feeds := [feed_blog];
     entries := [entry_at 1 1 "c" 8; entry_at 2 1 "a" 10;
                 entry_at 3 1 "d" 7; entry_at 4 1 "b" 9] |}.

(** A busy feed (45 entries within the hour before [t_ref]), a quiet feed
    (one entry, three days before) and a dormant one (one entry, a month
    before). *)
Definition t_ref : Z := timedelta_days 100.

Definition feed_busy : row := {[ "id" := VInt 1; "name" := VStr "busy" ]}.
Definition feed_quiet : row := {[ "id" := VInt 2; "name" := VStr "quiet" ]}.
Definition feed_dormant : row := {[ "id" := VInt 3; "name" := VStr "dormant" ]}.

Definition busy_entry (k : nat) : row :=
  entry_at (Z.of_nat k) 1 "post" (t_ref - timedelta_hours 1).
Definition quiet_entry : row :=
  entry_at 100 2 "essay" (t_ref - timedelta_hours 72).
Definition dormant_entry : row :=
  entry_at 200 3 "memo" (t_ref - timedelta_days 30).

Definition timeline : database :=
  {| feeds := [feed_busy; feed_quiet; feed_dormant];
     entries := quiet_entry :: dormant_entry :: (busy_entry <$> seq 1 45) |}.

Definition dormant_only : database :=
  {| feeds := [feed_dormant]; entries := [dormant_entry] |}.

(** An environment for the examples: no markup is recognised, every request
    succeeds with an empty document, and a [struct_time] converts to its
    seconds field. *)
Definition offline_env : env :=
  {| soup := string;
     BeautifulSoup := fun s => s;
     decompose_imgs := fun t => t;
     extract_p := fun _ => None;
     soup_img := fun _ => None;
     find_meta := fun _ _ => None;
     requests_head_ok := fun _ => Ok true;
     requests_get := fun _ => Ok EmptyString;
     feedparser_parse := fun _ => Raise RequestException;
     favicon_get := fun _ => Ok [];
     time_mktime := fun st => Ok (tm_sec st);
     datetime_fromtimestamp := fun t => Ok t |}.

Definition at_second (s : Z) : struct_time :=
  {| tm_year := 2023; tm_mon := 9; tm_mday := 1; tm_hour := 0; tm_min := 0;
     tm_sec := s; tm_wday := 4; tm_yday := 244; tm_isdst := 0 |}.

Definition raw_post (id : string) (s : Z) : raw_entry :=
  {| e_link := Some "https://example.org/post";
     e_summary := Some "<p>text</p>";
     e_title := Some "post";
     e_author := None;
     e_source_icon := None;
     e_media_thumbnail := Some [{| m_url := Some "https://example.org/t.png";
                                   m_type := None |}];
     e_media_content := None;
     e_id := Some id;
     e_published_parsed := Some (at_second s);
     e_updated_parsed := Some (at_second s) |}.

(** The same entry without a summary, and without an update time. *)
Definition raw_no_summary : raw_entry :=
  {| e_link := Some "https://example.org/post";
     e_summary := None;
     e_title := Some "post";
     e_author := None;
     e_source_icon := None;
     e_media_thumbnail := None;
     e_media_content := None;
     e_id := Some "x";
     e_published_parsed := Some (at_second 5);
     e_updated_parsed := Some (at_second 5) |}.


Definition plain_feed (generator : option string) : feed_data :=
  {| fd_link := Some "https://example.org/";
     fd_generator := generator;
     fd_title := Some "Example";
     fd_icon := None;
     fd_webfeeds_icon := None;
     fd_updated_parsed := None;
     fd_entries := [] |}.

(** An entries table with a column for each of [FIELDS], as the parser module
    writes it. *)
Definition fields_schema : list column :=
  [ {| c_name := "id"; c_type := TInteger; c_nullable := true |};
    {| c_name := "feed_id"; c_type := TInteger; c_nullable := true |};
    {| c_name := "remote_id"; c_type := TString; c_nullable := false |};
    {| c_name := "title"; c_type := TString; c_nullable := false |};
    {| c_name := "title_url"; c_type := TString; c_nullable := true |};
    {| c_name := "avatar_url"; c_type := TString; c_nullable := true |};
    {| c_name := "username"; c_type := TString; c_nullable := true |};
    {| c_name := "body"; c_type := TString; c_nullable := true |};
    {| c_name := "media_url"; c_type := TString; c_nullable := true |};
    {| c_name := "created"; c_type := TTimestamp; c_nullable := false |};
    {| c_name := "updated"; c_type := TTimestamp; c_nullable := false |};
    {| c_name := "remote_created"; c_type := TTimestamp; c_nullable := false |};
    {| c_name := "remote_updated"; c_type := TTimestamp; c_nullable := false |} ].

Definition rss_feed_row : row :=
  {[ "id" := VInt 1; "name" := VStr "blog";
     "url" := VStr "https://example.org/feed"; "last_fetch" := VTime 1000 ]}.

(** The same environment with a feed server that answers every URL with
    [feed]. *)
Definition serving (feed : feed_data) : env :=
  {| soup := string;
     BeautifulSoup := fun s => s;
     decompose_imgs := fun t => t;
     extract_p := fun _ => None;
     soup_img := fun _ => None;
     find_meta := fun _ _ => None;
     requests_head_ok := fun _ => Ok true;
     requests_get := fun _ => Ok EmptyString;
     feedparser_parse := fun _ => Ok feed;
     favicon_get := fun _ => Ok [];
     time_mktime := fun st => Ok (tm_sec st);
     datetime_fromtimestamp := fun t => Ok t |}.

(** A document updated at second 9000, with one entry. *)
Definition fresh_feed : feed_data :=
  {| fd_link := Some "https://example.org/";
     fd_generator := None;
     fd_title := Some "Example";
     fd_icon := None;
     fd_webfeeds_icon := None;
     fd_updated_parsed := Some (at_second 9000);
     fd_entries := [raw_post "a" 5] |}.

(** A document without a link. *)
Definition linkless_feed : feed_data :=
  {| fd_link := None;
     fd_generator := None;
     fd_title := Some "Example";
     fd_icon := None;
     fd_webfeeds_icon := None;
     fd_updated_parsed := None;
     fd_entries := [raw_post "a" 5] |}.

Definition stale_feed_row : row :=
  {[ "id" := VInt 2; "name" := VStr "news";
     "url" := VStr "https://example.org/news" ]}.

(** Sources for the examples: the feed server answers with [entries_values]
    and new cache tokens; the timeline is empty. *)
Definition answering (entries_values : list row) : sources :=
  {| feed_doc := string;
     rss_fetch := fun _ _ _ _ _ =>
       Ok (entries_values, "{}", VStr "etag-2", VStr "yesterday");
     json_dumps := fun s => s;
     mastodon_fetch_toots := fun _ _ _ => Ok [] |}.

Definition example_config : config :=
  {| RSS_SKIP_RECENTLY_UPDATED_MINUTES := 60;
     RSS_SKIP_OLDER_THAN_DAYS := 15;
     MASTODON_FETCH_LIMIT := 50 |}.

(** * Properties *)

(** ** The error monad *)

Lemma bind_ok {A B} (m : result A) (k : A -> result B) (b : B) :
  m ≫= k = Ok b -> exists a, m = Ok a /\ k a = Ok b.
Proof. destruct m as [a|e]; simpl; [eauto | discriminate]. Qed.

(** ** ORDER BY *)

Section SortFacts.
Context {A : Type} (le : A -> A -> bool).

Lemma insert_sorted_perm x l : insert_sorted le x l ≡ₚ x :: l.
Proof.
  induction l as [|y l IH]; simpl; [done|].
  destruct (le x y); [done|]. rewrite IH. apply Permutation_swap.
Qed.

Lemma order_by_perm l : order_by le l ≡ₚ l.
Proof.
  induction l as [|x l IH]; simpl; [done|].
  rewrite insert_sorted_perm. by rewrite IH.
Qed.

Lemma elem_of_order_by x l : x ∈ order_by le l <-> x ∈ l.
Proof. by rewrite order_by_perm. Qed.
End SortFacts.

(** ** Frequency ranks *)

Lemma rank_of_count_cases n :
  (n <= 2 -> rank_of_count n = 1) /\
  (2 < n < 5 -> rank_of_count n = 2) /\
  (5 <= n < 15 -> rank_of_count n = 3) /\
  (15 <= n < 45 -> rank_of_count n = 3) /\
  (45 <= n < 300 -> rank_of_count n = 4) /\
  (300 <= n -> rank_of_count n = 5).
Proof.
  unfold rank_of_count.
  repeat split; intros; repeat case_match; lia.
Qed.

Lemma freq_bucket_agrees n :
  n < 45 \/ 300 <= n -> Feed.freq_bucket n = rank_of_count n.
Proof.
  unfold Feed.freq_bucket, rank_of_count. intros; repeat case_match; lia.
Qed.

Lemma freq_bucket_differs n :
  45 <= n < 300 -> Feed.freq_bucket n = 5 /\ rank_of_count n = 4.
Proof.
  unfold Feed.freq_bucket, rank_of_count. intros; split; repeat case_match; lia.
Qed.

(** C2.  The rank function registered in the storage engine and the batch
    ranker do not agree on a count of 45: [Feed.freq_bucket] has no tier for
    the counts from 45 up to 299 and answers 5, where the batch ranker
    answers 4. *)
Theorem freq_bucket_45_not_batch_rank :
  Feed.freq_bucket 45 = 5 /\ rank_of_count 45 = 4 /\
  Feed.freq_bucket 45 <> rank_of_count 45.
Proof. by vm_compute. Qed.

Definition apply_ranks (L : list (row * Z)) (r : row) : row :=
  foldl (fun r p => if bool_decide (col r "id" = col p.1 "id")
                    then <["frequency_rank" := VInt (rank_of_count p.2)]> r
                    else r) r L.

Lemma foldl_set_frequency_rank L fs :
  foldl (fun fs p => set_frequency_rank p.1 (rank_of_count p.2) fs) fs L
  = map (apply_ranks L) fs.
Proof.
  revert fs. induction L as [|p L IH]; intros fs; simpl.
  - by rewrite map_id.
  - rewrite IH. unfold set_frequency_rank. rewrite map_map. done.
Qed.

Lemma col_insert_ne (r : row) c c' v : c <> c' -> col (<[c := v]> r) c' = col r c'.
Proof. intros. unfold col. by rewrite lookup_insert_ne. Qed.

Lemma col_insert_eq (r : row) c v : col (<[c := v]> r) c = v.
Proof. unfold col. by rewrite lookup_insert_eq. Qed.

Lemma apply_ranks_none L (r : row) :
  Forall (fun p => col p.1 "id" <> col r "id") L -> apply_ranks L r = r.
Proof.
  induction 1 as [|p L Hp _ IH]; simpl; [done|].
  rewrite bool_decide_false by congruence. exact IH.
Qed.

Lemma apply_ranks_same L (r : row) n :
  Forall (fun p => col p.1 "id" = col r "id" -> p.2 = n) L ->
  apply_ranks L (<["frequency_rank" := VInt (rank_of_count n)]> r)
  = <["frequency_rank" := VInt (rank_of_count n)]> r.
Proof.
  induction 1 as [|p L Hp _ IH]; simpl; [done|].
  rewrite col_insert_ne by done.
  case_bool_decide as Hid; [|exact IH].
  rewrite Hp by done. rewrite insert_insert_eq. exact IH.
Qed.

Lemma apply_ranks_some L (r : row) n :
  Forall (fun p => col p.1 "id" = col r "id" -> p.2 = n) L ->
  Exists (fun p => col p.1 "id" = col r "id") L ->
  apply_ranks L r = <["frequency_rank" := VInt (rank_of_count n)]> r.
Proof.
  intros Hall Hex. induction Hex as [p L Hp|p L Hex IH]; simpl.
  - inversion_clear Hall as [|?? Hn Hall'].
    rewrite bool_decide_true by done. rewrite Hn by done.
    by apply apply_ranks_same.
  - inversion_clear Hall as [|?? Hn Hall'].
    case_bool_decide as Hid; [|by apply IH].
    rewrite Hn by done. by apply apply_ranks_same.
Qed.

Lemma recent_count_id since es (f f' : row) :
  col f' "id" = col f "id" -> recent_count since es f' = recent_count since es f.
Proof. intros H. unfold recent_count, joined_since. by rewrite H. Qed.

Lemma elem_of_feed_counts since d p :
  p ∈ feed_counts since d <->
  p.1 ∈ feeds d /\ p.2 = recent_count since (entries d) p.1 /\ 0 < p.2.
Proof.
  unfold feed_counts. rewrite elem_of_order_by, list_elem_of_filter, list_elem_of_fmap.
  split.
  - intros [Hpos (f & -> & Hf)]. done.
  - intros (Hf & Hn & Hpos). split; [done|]. exists p.1.
    split; [|done]. destruct p; simpl in *; congruence.
Qed.

(** Feeds without a qualifying entry are not in the query: their row is left
    as it was. *)
Lemma set_frequency_ranks_no_recent now d i (f : row) :
  feeds d !! i = Some f ->
  recent_count (now - timedelta_days 14) (entries d) f = 0 ->
  feeds (set_frequency_ranks now d) !! i = Some f.
Proof.
  intros Hf Hn. unfold set_frequency_ranks; simpl.
  rewrite foldl_set_frequency_rank, list_lookup_fmap, Hf. simpl.
  f_equal. apply apply_ranks_none, Forall_forall. intros p Hp Hid.
  apply elem_of_feed_counts in Hp as (_ & Hc & Hpos).
  rewrite (recent_count_id _ _ f) in Hc by done. lia.
Qed.

(** C3.  The batch ranker writes on every feed that has qualifying entries
    the rank its count maps to under the fixed thresholds. *)
Theorem set_frequency_ranks_thresholds now d i (f : row) :
  feeds d !! i = Some f ->
  0 < recent_count (now - timedelta_days 14) (entries d) f ->
  exists rank,
    feeds (set_frequency_ranks now d) !! i
      = Some (<["frequency_rank" := VInt rank]> f) /\
    let count := recent_count (now - timedelta_days 14) (entries d) f in
    (count <= 2 -> rank = 1) /\
    (2 < count < 5 -> rank = 2) /\
    (5 <= count < 15 -> rank = 3) /\
    (15 <= count < 45 -> rank = 3) /\
    (45 <= count < 300 -> rank = 4) /\
    (300 <= count -> rank = 5) /\
    (count = 2 -> rank = 1) /\ (count = 4 -> rank = 2) /\
    (count = 14 -> rank = 3) /\ (count = 44 -> rank = 3) /\
    (count = 299 -> rank = 4) /\ (count = 300 -> rank = 5).
Proof.
  intros Hf Hpos.
  set (n := recent_count (now - timedelta_days 14) (entries d) f) in *.
  exists (rank_of_count n). split.
  - unfold set_frequency_ranks; simpl.
    rewrite foldl_set_frequency_rank, list_lookup_fmap, Hf. simpl. f_equal.
    apply apply_ranks_some.
    + apply Forall_forall. intros p Hp Hid.
      apply elem_of_feed_counts in Hp as (_ & Hc & _).
      rewrite Hc. by apply recent_count_id.
    + apply Exists_exists. exists (f, n). split; [|done].
      apply elem_of_feed_counts. simpl. split; [|done].
      by eapply list_elem_of_lookup_2.
  - simpl. pose proof (rank_of_count_cases n) as (H1 & H2 & H3 & H4 & H5 & H6).
    repeat split; intros; first [by auto | (subst; auto; fail) | idtac];
      match goal with H : n = _ |- _ => rewrite H; reflexivity end.
Qed.

Lemma set_frequency_ranks_thresholds_witness :
  feeds (set_frequency_ranks (timedelta_days 30) two_posts) !! 0%nat
  = Some (<["frequency_rank" := VInt 1]> feed_blog).
Proof.
  destruct (set_frequency_ranks_thresholds (timedelta_days 30) two_posts 0 feed_blog)
    as (rank & Hrow & Hle2 & _).
  - reflexivity.
  - vm_compute. reflexivity.
  - rewrite Hrow. rewrite Hle2; [reflexivity|]. vm_compute. discriminate.
Defined.

(** ** The upsert statement *)

Lemma col_lookup (r : row) c v : r !! c = Some v -> col r c = v.
Proof. unfold col. by intros ->. Qed.

Lemma col_not_null (r : row) c :
  col r c <> VNull -> exists v, r !! c = Some v /\ v <> VNull.
Proof. unfold col. destruct (r !! c) as [v|]; simpl; [eauto | done]. Qed.

Lemma sql_eq_refl v : v <> VNull -> sql_eq v v = true.
Proof. destruct v; simpl; intros; try done; by rewrite bool_decide_true. Qed.

Lemma sql_eq_eq a b : sql_eq a b = true -> a = b.
Proof.
  destruct a, b; simpl; try done; intros H; by apply bool_decide_eq_true in H.
Qed.

Lemma id_taken_null tbl : id_taken VNull tbl = false.
Proof.
  unfold id_taken. induction tbl as [|r tbl IH]; simpl; [done|].
  rewrite IH. by destruct (col r "id").
Qed.

Lemma existsb_filter_nil {A} (f : A -> bool) (l : list A) :
  existsb f l = false <-> filter (fun x => f x = true) l = [].
Proof.
  induction l as [|x l IH]; simpl; [done|].
  rewrite filter_cons. destruct (decide (f x = true)) as [Hx|Hx].
  - rewrite Hx. done.
  - apply not_true_is_false in Hx. rewrite Hx. done.
Qed.

Lemma source_column_known c :
  c ∈ source_columns -> is_Some (find_column entry_schema c).
Proof.
  unfold source_columns. rewrite !elem_of_cons, elem_of_nil.
  intros H; repeat (destruct H as [->|H]; [by eexists|]); done.
Qed.

Lemma marker_not_source c : c ∈ marker_columns -> c ∉ source_columns.
Proof.
  unfold source_columns, marker_columns. rewrite !elem_of_cons, !elem_of_nil.
  intros [->|[->|[->|[]]]]; intros H;
    repeat (destruct H as [H|H]; [discriminate H|]); done.
Qed.

Section Statement.
Context (utcnow t_exec feed_id : Z) (e : row).
Let values : row := <["feed_id" := VInt feed_id]> (<["updated" := VTime utcnow]> e).
Let rid : value := col e "remote_id".
Hypothesis Hcan : canonical e.

Lemma values_lookup_source c v : e !! c = Some v -> values !! c = Some v.
Proof.
  intros Hc. destruct Hcan as [Hall _]. destruct (Hall c v Hc) as [Hsrc _].
  unfold values. rewrite !lookup_insert_ne; [done| |]; intros <-;
    unfold source_columns in Hsrc; rewrite !elem_of_cons, elem_of_nil in Hsrc;
    repeat (destruct Hsrc as [Hsrc|Hsrc]; [discriminate Hsrc|]); done.
Qed.

Lemma values_lookup_other c :
  c ∉ source_columns -> c <> "feed_id" -> c <> "updated" -> values !! c = None.
Proof.
  intros Hsrc ? ?. unfold values. rewrite !lookup_insert_ne by done.
  destruct (e !! c) as [v|] eqn:Hc; [|done].
  destruct Hcan as [Hall _]. by destruct (Hall c v Hc).
Qed.

Lemma values_lookup_marker c : c ∈ marker_columns -> values !! c = None.
Proof.
  intros Hm. apply values_lookup_other; [by apply marker_not_source| |];
    intros ->; unfold marker_columns in Hm;
    rewrite !elem_of_cons, elem_of_nil in Hm;
    repeat (destruct Hm as [Hm|Hm]; [discriminate Hm|]); done.
Qed.

Lemma values_lookup_id : values !! "id" = None.
Proof.
  apply values_lookup_other; [|done..]. unfold source_columns.
  rewrite !elem_of_cons, elem_of_nil. intros H.
  repeat (destruct H as [H|H]; [discriminate H|]); done.
Qed.

Lemma values_known : map_Forall (column_known entry_schema) values.
Proof.
  unfold values. apply map_Forall_insert_2; [by eexists|].
  apply map_Forall_insert_2; [by eexists|].
  intros c v Hc. destruct Hcan as [Hall _].
  destruct (Hall c v Hc) as [Hsrc _]. by apply source_column_known.
Qed.

Lemma values_accepted : map_Forall (column_accepts entry_schema) values.
Proof.
  unfold values. apply map_Forall_insert_2; [done|].
  apply map_Forall_insert_2; [done|].
  intros c v Hc. destruct Hcan as [Hall _]. by destruct (Hall c v Hc).
Qed.

Lemma values_required c :
  c ∈ required_columns -> col (values ∪ entry_defaults t_exec) c <> VNull.
Proof.
  intros Hc. destruct Hcan as [_ Hreq].
  rewrite Forall_forall in Hreq. specialize (Hreq c Hc).
  apply col_not_null in Hreq as (v & Hv & Hnn).
  erewrite col_lookup; [exact Hnn|].
  apply lookup_union_Some_l. by apply values_lookup_source.
Qed.

Lemma values_not_null : not_null_ok entry_schema (values ∪ entry_defaults t_exec) = true.
Proof.
  apply forallb_forall. intros k Hk. simpl in Hk.
  repeat (destruct Hk as [<-|Hk]; [first
    [ reflexivity
    | simpl; unfold is_null; rewrite bool_decide_false; [reflexivity|] ]|]);
    try done.
  - apply values_required. set_solver.
  - apply values_required. set_solver.
  - unfold col. rewrite lookup_union_r; [done|].
    apply values_lookup_other; [|done..]. unfold source_columns.
    rewrite !elem_of_cons, elem_of_nil. intros H.
    repeat (destruct H as [H|H]; [discriminate H|]); done.
  - unfold col, values.
    erewrite lookup_union_Some_l; [|by rewrite lookup_insert_ne, lookup_insert_eq]. done.
  - apply values_required. set_solver.
  - apply values_required. set_solver.
Qed.

Lemma values_same_key r : same_key values r = key_matches feed_id rid r.
Proof.
  unfold same_key, key_matches, rid. f_equal.
  - unfold values. by rewrite col_insert_eq.
  - f_equal. destruct Hcan as [_ Hreq]. rewrite Forall_forall in Hreq.
    destruct (col_not_null e "remote_id") as (v & Hv & _); [apply Hreq; set_solver|].
    rewrite (col_lookup e _ v Hv). apply col_lookup. by apply values_lookup_source.
Qed.

Lemma values_key_matches (r : row) :
  key_matches feed_id rid (values ∪ r) = true.
Proof.
  destruct Hcan as [_ Hreq]. rewrite Forall_forall in Hreq.
  destruct (col_not_null e "remote_id") as (v & Hv & Hnn); [apply Hreq; set_solver|].
  unfold key_matches, rid. rewrite (col_lookup e _ v Hv).
  rewrite (col_lookup (values ∪ r) "feed_id" (VInt feed_id)).
  2:{ apply lookup_union_Some_l. unfold values. by rewrite lookup_insert_eq. }
  rewrite (col_lookup (values ∪ r) "remote_id" v).
  2:{ apply lookup_union_Some_l. by apply values_lookup_source. }
  simpl. rewrite bool_decide_true by done. by apply sql_eq_refl.
Qed.

Lemma upsert_passes_checks tbl :
  upsert entry_schema t_exec values tbl =
    if existsb (same_key values) tbl
    then Ok (map (fun r => if same_key values r then values ∪ r else r) tbl)
    else Ok (tbl ++ [<["id" := VInt (next_id tbl)]> (values ∪ entry_defaults t_exec)]).
Proof.
  unfold upsert.
  rewrite (bool_decide_true _ values_known). cbn [negb].
  rewrite (bool_decide_true _ values_accepted). cbn [negb].
  rewrite values_not_null. cbn [negb].
  assert (col values "id" = VNull) as ->.
  { unfold col. by rewrite values_lookup_id. }
  rewrite id_taken_null, values_lookup_id.
  rewrite bool_decide_false by done. done.
Qed.

(** The statement on a table that holds no row for the key: it inserts one. *)
Lemma upsert_fresh tbl :
  rows_with_key feed_id rid tbl = [] ->
  exists r,
    upsert entry_schema t_exec values tbl = Ok (tbl ++ [r]) /\
    rows_with_key feed_id rid (tbl ++ [r]) = [r] /\
    (forall c v, values !! c = Some v -> r !! c = Some v) /\
    (forall c, c ∈ marker_columns -> r !! c = None).
Proof.
  intros Hnone. eexists. rewrite upsert_passes_checks.
  assert (existsb (same_key values) tbl = false) as ->.
  { apply existsb_filter_nil. rewrite <- Hnone. unfold rows_with_key.
    apply list_filter_iff. intros r. by rewrite values_same_key. }
  split; [done|]. split; [|split].
  - unfold rows_with_key in *. rewrite filter_app, Hnone. simpl.
    rewrite filter_cons, filter_nil.
    rewrite decide_True; [done|].
    rewrite insert_union_r by apply values_lookup_id. apply values_key_matches.
  - intros c v Hc. rewrite lookup_insert_ne.
    + by apply lookup_union_Some_l.
    + intros <-. by rewrite values_lookup_id in Hc.
  - intros c Hm. rewrite lookup_insert_ne.
    + rewrite lookup_union_r by (by apply values_lookup_marker).
      unfold entry_defaults. unfold marker_columns in Hm.
      rewrite !elem_of_cons, elem_of_nil in Hm.
      destruct Hm as [->|[->|[->|[]]]]; done.
    + intros <-. unfold marker_columns in Hm.
      rewrite !elem_of_cons, elem_of_nil in Hm.
      repeat (destruct Hm as [Hm|Hm]; [discriminate Hm|]); done.
Qed.

(** The statement on a table that holds one row for the key: it updates that
    row with the columns of [values] and leaves its other columns alone. *)
Lemma upsert_conflict tbl (r : row) :
  rows_with_key feed_id rid tbl = [r] ->
  exists tbl',
    upsert entry_schema t_exec values tbl = Ok tbl' /\
    length tbl' = length tbl /\
    rows_with_key feed_id rid tbl' = [values ∪ r] /\
    (forall c v, values !! c = Some v -> (values ∪ r) !! c = Some v) /\
    (forall c, values !! c = None -> (values ∪ r) !! c = r !! c).
Proof.
  intros Hone. eexists. rewrite upsert_passes_checks.
  assert (existsb (same_key values) tbl = true) as ->.
  { apply not_false_iff_true. intros Hex. apply existsb_filter_nil in Hex.
    erewrite list_filter_iff in Hex.
    - unfold rows_with_key in Hone. by rewrite Hone in Hex.
    - intros x. by rewrite values_same_key. }
  split; [done|]. split; [by rewrite length_map|]. split; [|split].
  - unfold rows_with_key in *. rewrite <- (list_fmap_singleton (fun x : row => values ∪ x)).
    rewrite <- Hone. clear Hone.
    induction tbl as [|x tbl' IH]; [done|].
    rewrite fmap_cons, !filter_cons, values_same_key.
    destruct (key_matches feed_id rid x) eqn:Hx.
    + rewrite !decide_True by (done || apply values_key_matches).
      rewrite fmap_cons. f_equal. apply IH.
    + rewrite !decide_False by (by rewrite Hx). apply IH.
  - intros c v Hc. by apply lookup_union_Some_l.
  - intros c Hc. by apply lookup_union_r.
Qed.
End Statement.

(** A re-sync of a stored entry keeps the markers the user has set on it,
    whatever they are. *)
Lemma resync_keeps_markers clock utcnow feed_id (e : row) tbl (r : row) :
  canonical e ->
  rows_with_key feed_id (col e "remote_id") tbl = [r] ->
  exists tbl' r',
    upsert_entries clock utcnow feed_id [e] tbl = (tbl', None) /\
    rows_with_key feed_id (col e "remote_id") tbl' = [r'] /\
    (forall c v, e !! c = Some v -> r' !! c = Some v) /\
    r' !! "updated" = Some (VTime utcnow) /\
    (forall c, c ∈ marker_columns -> r' !! c = r !! c).
Proof.
  intros Hcan Hone.
  destruct (upsert_conflict utcnow (clock 0%nat) feed_id e Hcan tbl r Hone)
    as (tbl' & Hup & _ & Hrows & Hset & Hkeep).
  eexists tbl', _. unfold upsert_entries. simpl. rewrite Hup.
  split; [done|]. split; [exact Hrows|]. split; [|split].
  - intros c v Hc. by apply Hset, values_lookup_source.
  - apply Hset. by rewrite lookup_insert_ne, lookup_insert_eq.
  - intros c Hm. by apply Hkeep, values_lookup_marker.
Qed.

(** C1.  Upserting two canonical entries with one [(feed_id, remote_id)], one
    after the other, leaves one row for the key; it holds the second entry's
    values, and its markers are those the row had after the first upsert. *)
Theorem upsert_twice_one_row clock1 clock2 now1 now2 feed_id (e1 e2 : row) tbl :
  canonical e1 -> canonical e2 ->
  col e1 "remote_id" = col e2 "remote_id" ->
  (length (rows_with_key feed_id (col e1 "remote_id") tbl) <= 1)%nat ->
  exists tbl1 tbl2 r1 r2,
    upsert_entries clock1 now1 feed_id [e1] tbl = (tbl1, None) /\
    upsert_entries clock2 now2 feed_id [e2] tbl1 = (tbl2, None) /\
    rows_with_key feed_id (col e1 "remote_id") tbl1 = [r1] /\
    rows_with_key feed_id (col e1 "remote_id") tbl2 = [r2] /\
    (forall c v, e2 !! c = Some v -> r2 !! c = Some v) /\
    r2 !! "updated" = Some (VTime now2) /\
    (forall c, c ∈ marker_columns -> r2 !! c = r1 !! c).
Proof.
  intros Hcan1 Hcan2 Hrid Huniq.
  assert (exists tbl1 r1,
    upsert_entries clock1 now1 feed_id [e1] tbl = (tbl1, None) /\
    rows_with_key feed_id (col e1 "remote_id") tbl1 = [r1]) as (tbl1 & r1 & Hup1 & Hrows1).
  { destruct (rows_with_key feed_id (col e1 "remote_id") tbl) as [|r0 [|? ?]] eqn:Hrows.
    - destruct (upsert_fresh now1 (clock1 0%nat) feed_id e1 Hcan1 tbl Hrows)
        as (r & Hup & Hr & _).
      exists (tbl ++ [r]), r. unfold upsert_entries. simpl. by rewrite Hup.
    - destruct (upsert_conflict now1 (clock1 0%nat) feed_id e1 Hcan1 tbl r0 Hrows)
        as (tbl1 & Hup & _ & Hr & _).
      eexists tbl1, _. unfold upsert_entries. simpl. by rewrite Hup.
    - simpl in Huniq. lia. }
  rewrite Hrid in Hrows1.
  destruct (resync_keeps_markers clock2 now2 feed_id e2 tbl1 r1 Hcan2 Hrows1)
    as (tbl2 & r2 & Hup2 & Hrows2 & Hvals & Hupd & Hmark).
  exists tbl1, tbl2, r1, r2. rewrite Hrid. done.
Qed.

Lemma upsert_twice_one_row_witness :
  exists tbl1 tbl2 r1 r2,
    upsert_entries (fun _ => 100) 100 1 [post_v1] [stored_post] = (tbl1, None) /\
    upsert_entries (fun _ => 200) 200 1 [post_v2] tbl1 = (tbl2, None) /\
    rows_with_key 1 (col post_v1 "remote_id") tbl1 = [r1] /\
    rows_with_key 1 (col post_v1 "remote_id") tbl2 = [r2] /\
    (forall c v, post_v2 !! c = Some v -> r2 !! c = Some v) /\
    r2 !! "updated" = Some (VTime 200) /\
    (forall c, c ∈ marker_columns -> r2 !! c = r1 !! c).
Proof.
  apply (upsert_twice_one_row (fun _ => 100) (fun _ => 200) 100 200 1
           post_v1 post_v2 [stored_post]).
  - split; [apply (bool_decide_unpack _); vm_compute; exact I
           | repeat constructor; discriminate].
  - split; [apply (bool_decide_unpack _); vm_compute; exact I
           | repeat constructor; discriminate].
  - reflexivity.
  - vm_compute. lia.
Defined.

(** ** Sorted results *)

Lemma Forall_filter {A} (P Q : A -> Prop) `{!forall x, Decision (P x)} l :
  Forall Q l -> Forall Q (filter P l).
Proof.
  rewrite !Forall_forall. intros HQ x Hx.
  apply list_elem_of_filter in Hx as [_ Hx]. auto.
Qed.

Section SortSorted.
Context {A : Type} (le : A -> A -> bool).
Hypothesis le_total : forall x y, le x y = true \/ le y x = true.
Hypothesis le_trans : forall x y z, le x y = true -> le y z = true -> le x z = true.

Local Abbreviation R := (fun a b => le a b = true).

Lemma insert_sorted_sorted x l :
  StronglySorted R l -> StronglySorted R (insert_sorted le x l).
Proof.
  induction 1 as [|y l Hl IH Hy]; simpl.
  - by repeat constructor.
  - destruct (le x y) eqn:Hxy.
    + constructor; [by constructor|]. constructor; [done|].
      eapply Forall_impl; [exact Hy|]. simpl. eauto.
    + constructor; [exact IH|]. rewrite insert_sorted_perm.
      constructor; [|done]. destruct (le_total x y); congruence.
Qed.

Lemma order_by_sorted l : StronglySorted R (order_by le l).
Proof.
  induction l as [|x l IH]; simpl; [constructor|].
  by apply insert_sorted_sorted.
Qed.

Lemma insert_sorted_least x l :
  Forall (R x) l -> insert_sorted le x l = x :: l.
Proof. destruct 1 as [|y l Hy _]; simpl; [done|]. by rewrite Hy. Qed.

Context (P : A -> Prop) `{!forall x, Decision (P x)}.

Lemma filter_insert_sorted x l :
  StronglySorted R l ->
  filter P (insert_sorted le x l)
  = if decide (P x) then insert_sorted le x (filter P l) else filter P l.
Proof.
  induction 1 as [|y l Hl IH Hy]; simpl.
  - rewrite filter_cons, filter_nil. by destruct (decide (P x)).
  - destruct (le x y) eqn:Hxy.
    + rewrite (filter_cons _ x). destruct (decide (P x)); [|done].
      symmetry. apply insert_sorted_least.
      apply Forall_filter. constructor; [done|].
      eapply Forall_impl; [exact Hy|]. simpl. eauto.
    + rewrite (filter_cons _ y), IH, (filter_cons _ y).
      destruct (decide (P y)), (decide (P x)); simpl; try done.
      by rewrite Hxy.
Qed.

Lemma filter_order_by l : filter P (order_by le l) = order_by le (filter P l).
Proof.
  induction l as [|x l IH]; simpl; [done|].
  rewrite filter_insert_sorted by apply order_by_sorted.
  rewrite filter_cons, IH. by destruct (decide (P x)).
Qed.
End SortSorted.

Lemma StronglySorted_lookup {A} (R : relation A) l i j x y :
  StronglySorted R l -> (i < j)%nat ->
  l !! i = Some x -> l !! j = Some y -> R x y.
Proof.
  intros Hs. revert i j. induction Hs as [|z l Hl IH Hz]; intros i j Hij Hi Hj.
  - done.
  - destruct j as [|j]; [lia|]. destruct i as [|i]; simpl in *.
    + injection Hi as ->. rewrite Forall_forall in Hz.
      apply Hz. by eapply list_elem_of_lookup_2.
    + apply (IH i j); [lia|done..].
Qed.

(** ** The retrievals *)

Lemma desc_le_total a b : desc_le a b = true \/ desc_le b a = true.
Proof. destruct a, b; simpl; auto. destruct (Z.leb_spec z0 z); [auto|right; lia]. Qed.

Lemma desc_le_trans a b c :
  desc_le a b = true -> desc_le b c = true -> desc_le a c = true.
Proof. destruct a, b, c; simpl; try done. lia. Qed.

Lemma by_desc_total c x y : by_desc c x y = true \/ by_desc c y x = true.
Proof. apply desc_le_total. Qed.

Lemma by_desc_trans c x y z :
  by_desc c x y = true -> by_desc c y z = true -> by_desc c x z = true.
Proof. apply desc_le_trans. Qed.

Lemma elem_of_execute {A} (q : select A) x : x ∈ execute q -> x ∈ sel_rows q.
Proof.
  unfold execute. intros H.
  apply (subseteq_drop (sel_offset q)).
  destruct (sel_limit q); [by eapply subseteq_take|done].
Qed.

Lemma paginate_items {A} per_page (q : select A) page items :
  paginate per_page q page = Ok items ->
  items = take per_page (drop ((page - 1) * per_page) (sel_rows q)).
Proof.
  unfold paginate, execute. simpl.
  destruct (_ || _); [discriminate|].
  destruct (take _ _); [|congruence]. destruct (bool_decide _); congruence.
Qed.

Lemma filtered_query_deleted d fl e :
  e ∈ filtered_query d fl -> deleted_side fl e.
Proof.
  unfold filtered_query, deleted_side. rewrite list_elem_of_filter.
  intros [Hw _]. unfold where_filters in Hw.
  rewrite !andb_true_iff in Hw. destruct Hw as [[[[Hdel _] _] _] _].
  unfold is_null in Hdel. destruct (truthy_bool (f_deleted fl)).
  - apply negb_true_iff, bool_decide_eq_false in Hdel. done.
  - by apply bool_decide_eq_true in Hdel.
Qed.

Lemma select_pinned_filtered d fl e :
  e ∈ Entry.select_pinned d fl -> e ∈ filtered_query d fl.
Proof.
  unfold Entry.select_pinned. intros H. apply elem_of_execute in H. simpl in H.
  rewrite elem_of_order_by, list_elem_of_filter in H. by destruct H.
Qed.

Lemma chronological_filtered d older fl e :
  e ∈ Entry.chronological d older fl -> e ∈ filtered_query d fl.
Proof.
  unfold Entry.chronological. rewrite elem_of_order_by.
  destruct older; [|done]. rewrite list_elem_of_filter. by intros [_ ?].
Qed.

Lemma frequency_ordered_filtered d now start_at fl p :
  p ∈ Entry.frequency_ordered d now start_at fl ->
  p.1 ∈ filtered_query d fl /\
  Entry.subquery_rank d (now - timedelta_days 14) p.1 = Some p.2.
Proof.
  unfold Entry.frequency_ordered. rewrite elem_of_order_by, list_elem_of_omap.
  intros (e & He & Hr).
  destruct (Entry.subquery_rank _ _ e) as [r|] eqn:Hrank; [|done].
  simpl in Hr. injection Hr as <-. done.
Qed.

Lemma select_page_by_frequency_items d now per_page lim start_at page fl items :
  Entry.select_page_by_frequency d now per_page lim start_at page fl = Ok items ->
  items = fst <$> take per_page (drop ((page - 1) * per_page)
                    (Entry.frequency_ordered d now start_at fl)).
Proof.
  unfold Entry.select_page_by_frequency.
  destruct (paginate _ _ _) as [its|] eqn:Hp; [|done].
  intros [= <-]. by apply paginate_items in Hp as ->.
Qed.

(** C10.  Each of the three retrievals answers from one side of the
    soft-delete partition only: the side its [deleted] filter asks for. *)
Theorem retrievals_partition_on_deleted d fl lim older_than now per_page
    start_at page :
  Forall (deleted_side fl) (Entry.select_pinned d fl) /\
  Forall (deleted_side fl) (Entry.select_page_chronologically d lim older_than fl) /\
  (forall items,
     Entry.select_page_by_frequency d now per_page lim start_at page fl = Ok items ->
     Forall (deleted_side fl) items).
Proof.
  split; [|split].
  - apply Forall_forall. intros e He.
    by apply (filtered_query_deleted d), select_pinned_filtered.
  - apply Forall_forall. intros e He.
    apply elem_of_execute in He. simpl in He.
    by eapply (filtered_query_deleted d), chronological_filtered.
  - intros items Hitems. apply select_page_by_frequency_items in Hitems as ->.
    apply Forall_forall. intros e He.
    apply list_elem_of_fmap in He as (p & -> & Hp).
    apply subseteq_take, subseteq_drop in Hp.
    apply frequency_ordered_filtered in Hp as [? _].
    by apply (filtered_query_deleted d).
Qed.

(** ** Chronological paging *)

Lemma filter_none {A} (P : A -> Prop) `{!forall x, Decision (P x)} l :
  Forall (fun x => ~ P x) l -> filter P l = [].
Proof.
  induction 1 as [|x l Hx _ IH]; [done|].
  by rewrite filter_cons, decide_False.
Qed.

Lemma filter_all {A} (P : A -> Prop) `{!forall x, Decision (P x)} l :
  Forall P l -> filter P l = l.
Proof.
  induction 1 as [|x l Hx _ IH]; [done|].
  by rewrite filter_cons, decide_True, IH.
Qed.

(** In a listing sorted by distinct, non-NULL update times, the rows updated
    before the time of the last row of the first [n] are the rows after the
    first [n]. *)
Lemma filter_before_last (L : list row) n (x : row) c :
  StronglySorted (fun a b => by_desc "remote_updated" a b = true) L ->
  Forall (fun e => is_Some (ts e "remote_updated")) L ->
  NoDup ((fun e => ts e "remote_updated") <$> L) ->
  last (take n L) = Some x -> ts x "remote_updated" = Some c ->
  Forall (fun e => Entry.updated_before c e = false) (take n L) /\
  filter (fun e => Entry.updated_before c e = true) L = drop n L.
Proof.
  intros Hsorted Hsome Hnodup Hlast Hc.
  apply last_Some in Hlast as [l1 Hl1].
  assert (L = l1 ++ x :: drop n L) as HL.
  { rewrite <- (take_drop n L) at 1. rewrite Hl1, <- app_assoc. done. }
  assert (Forall (fun e => Entry.updated_before c e = false) (take n L)) as Hhead.
  { rewrite Hl1. apply Forall_app. split.
    - apply Forall_forall. intros y Hy.
      assert (by_desc "remote_updated" y x = true) as Hyx.
      { pose proof Hsorted as Hs. rewrite HL in Hs.
        eapply (StronglySorted_app_1_elem_of
                  (fun a b : row => by_desc "remote_updated" a b = true));
          [exact Hs|done|set_solver]. }
      unfold by_desc, Entry.updated_before in *. rewrite Hc in Hyx.
      destruct (ts y "remote_updated"); simpl in Hyx; [lia|done].
    - repeat constructor. unfold Entry.updated_before. rewrite Hc. lia. }
  split; [exact Hhead|].
  rewrite <- (take_drop n L) at 1. rewrite filter_app.
  rewrite filter_none.
  2:{ eapply Forall_impl; [exact Hhead|]. simpl. intros e ->. done. }
  simpl. apply filter_all. apply Forall_forall. intros z Hz.
  assert (by_desc "remote_updated" x z = true) as Hxz.
  { pose proof Hsorted as Hs. rewrite HL in Hs.
    change (x :: drop n L) with ([x] ++ drop n L) in Hs.
    rewrite (assoc_L (++)) in Hs.
    eapply (StronglySorted_app_1_elem_of
              (fun a b : row => by_desc "remote_updated" a b = true));
      [exact Hs|set_solver|done]. }
  assert (ts z "remote_updated" <> Some c) as Hne.
  { rewrite HL, fmap_app, fmap_cons in Hnodup.
    apply NoDup_app in Hnodup as (_ & _ & Hnd).
    apply NoDup_cons in Hnd as [Hnotin _]. rewrite Hc in Hnotin.
    intros Heq. apply Hnotin. rewrite <- Heq.
    by apply (list_elem_of_fmap_2 (fun e : row => ts e "remote_updated")). }
  assert (is_Some (ts z "remote_updated")) as [w Hw].
  { rewrite Forall_forall in Hsome. by apply Hsome, (subseteq_drop n). }
  unfold by_desc, Entry.updated_before in *. rewrite Hc, Hw in *.
  simpl in Hxz. assert (w <> c) by congruence. lia.
Qed.

Lemma chronological_sorted d older fl :
  StronglySorted (fun a b => by_desc "remote_updated" a b = true)
    (Entry.chronological d older fl).
Proof.
  apply order_by_sorted; [apply by_desc_total | apply by_desc_trans].
Qed.

Lemma chronological_before d t fl :
  Forall (fun e => Entry.updated_before t e = true)
    (Entry.chronological d (Some t) fl).
Proof.
  apply Forall_forall. intros e. unfold Entry.chronological.
  rewrite elem_of_order_by, list_elem_of_filter. by intros [? _].
Qed.

(** The listing below a cursor taken inside a listing is that listing
    filtered by the cursor. *)
Lemma chronological_cursor d older fl c :
  (forall t, older = Some t -> c <= t) ->
  Entry.chronological d (Some c) fl
  = filter (fun e => Entry.updated_before c e = true)
      (Entry.chronological d older fl).
Proof.
  intros Hc. unfold Entry.chronological.
  rewrite filter_order_by by (apply by_desc_total || apply by_desc_trans).
  f_equal. destruct older as [t|]; [|done].
  rewrite list_filter_filter. apply list_filter_iff. intros e.
  split; [|by intros [? _]]. intros He. split; [done|].
  specialize (Hc t eq_refl). unfold Entry.updated_before in *.
  destruct (ts e "remote_updated"); [lia|done].
Qed.

(** C7.  A chronological page holds at most [lim] entries that match the
    filters, latest update first, all updated strictly before the cursor when
    one is given; and with distinct update times the page below the last
    returned update time continues the listing where this page stops, with no
    entry twice and none left out. *)
Theorem chronological_page d lim older_than fl :
  let page := Entry.select_page_chronologically d lim older_than fl in
  (length page <= lim)%nat /\
  Forall (fun e => e ∈ filtered_query d fl) page /\
  StronglySorted (fun a b => by_desc "remote_updated" a b = true) page /\
  (forall t, older_than = Some t ->
     Forall (fun e => exists u, ts e "remote_updated" = Some u /\ u < t) page) /\
  (forall x c,
     Forall (fun e => is_Some (ts e "remote_updated")) (filtered_query d fl) ->
     NoDup ((fun e => ts e "remote_updated") <$> filtered_query d fl) ->
     last page = Some x -> ts x "remote_updated" = Some c ->
     let next := Entry.select_page_chronologically d lim (Some c) fl in
     (forall e, e ∈ page -> e ∉ next) /\
     page ++ next = take (lim + lim) (Entry.chronological d older_than fl)).
Proof.
  unfold Entry.select_page_chronologically, execute. simpl. rewrite !drop_0.
  set (L := Entry.chronological d older_than fl).
  assert (forall e, e ∈ take lim L -> e ∈ L) as Hsub.
  { intros e. apply subseteq_take. }
  split; [rewrite length_take; lia|]. split; [|split; [|split]].
  - apply Forall_forall. intros e He. apply Hsub in He.
    by eapply chronological_filtered.
  - pose proof (chronological_sorted d older_than fl) as Hs. fold L in Hs.
    rewrite <- (take_drop lim L) in Hs.
    by eapply (StronglySorted_app_1_l _ (take lim L)).
  - intros t ->. apply Forall_forall. intros e He. apply Hsub in He.
    pose proof (chronological_before d t fl) as Hb.
    rewrite Forall_forall in Hb. specialize (Hb e He).
    unfold Entry.updated_before in Hb.
    destruct (ts e "remote_updated") as [u|]; [|done]. exists u. split; [done|lia].
  - intros x c Hsome Hnodup Hlast Hc.
    assert (Entry.chronological d (Some c) fl = drop lim L
            /\ Forall (fun e => Entry.updated_before c e = false) (take lim L))
      as [Hnext Hhead].
    { rewrite (chronological_cursor d older_than fl c).
      - fold L. enough (Forall (fun e => Entry.updated_before c e = false) (take lim L)
          /\ filter (fun e => Entry.updated_before c e = true) L = drop lim L)
          by naive_solver.
        apply (filter_before_last L lim x c); [apply chronological_sorted| | |done..].
        + apply Forall_forall. intros e He. rewrite Forall_forall in Hsome.
          by eapply Hsome, chronological_filtered.
        + unfold L, Entry.chronological. rewrite order_by_perm.
          destruct older_than; [|done].
          eapply sublist_NoDup; [exact Hnodup|]. apply fmap_sublist, sublist_filter.
      - intros t ->. apply last_Some_elem_of, Hsub in Hlast.
        pose proof (chronological_before d t fl) as Hb.
        rewrite Forall_forall in Hb. specialize (Hb x Hlast).
        unfold Entry.updated_before in Hb. rewrite Hc in Hb. lia. }
    rewrite Hnext. split.
    + intros e He Hin. apply subseteq_take in Hin. rewrite drop_0 in Hin.
      rewrite Forall_forall in Hhead. specialize (Hhead e He).
      rewrite <- Hnext in Hin.
      pose proof (chronological_before d c fl) as Hb.
      rewrite Forall_forall in Hb. specialize (Hb e Hin). congruence.
    + rewrite drop_0. apply take_take_drop.
Qed.

Lemma chronological_page_witness :
  (fun e => ts e "remote_updated")
    <$> Entry.select_page_chronologically four_posts 2 None no_filters
  = [Some 10; Some 9] /\
  (fun e => ts e "remote_updated")
    <$> Entry.select_page_chronologically four_posts 2 (Some 9) no_filters
  = [Some 8; Some 7] /\
  Entry.select_page_chronologically four_posts 2 None no_filters
    ++ Entry.select_page_chronologically four_posts 2 (Some 9) no_filters
  = take 4 (Entry.chronological four_posts None no_filters).
Proof.
  split; [reflexivity|]. split; [reflexivity|].
  destruct (chronological_page four_posts 2 None no_filters)
    as (_ & _ & _ & _ & Hnext).
  apply (Hnext (entry_at 4 1 "b" 9) 9).
  - repeat constructor; by eexists.
  - apply (bool_decide_unpack _). vm_compute. exact I.
  - reflexivity.
  - reflexivity.
Defined.

(** ** The frequency-weighted ordering *)

Lemma by_frequency_total start_at x y :
  Entry.by_frequency start_at x y = true \/ Entry.by_frequency start_at y x = true.
Proof.
  unfold Entry.by_frequency.
  destruct (Entry.older_bucket start_at x.1), (Entry.older_bucket start_at y.1);
    simpl; auto; repeat case_bool_decide; try done; try congruence;
    first [apply by_desc_total | lia].
Qed.

Lemma by_frequency_trans start_at x y z :
  Entry.by_frequency start_at x y = true ->
  Entry.by_frequency start_at y z = true ->
  Entry.by_frequency start_at x z = true.
Proof.
  unfold Entry.by_frequency.
  destruct (Entry.older_bucket start_at x.1), (Entry.older_bucket start_at y.1),
    (Entry.older_bucket start_at z.1);
    simpl; repeat case_bool_decide; try done; try congruence; try lia;
    intros; try lia;
    match goal with
    | H1 : by_desc _ _ _ = true, H2 : by_desc _ _ _ = true |- _ =>
        exact (by_desc_trans _ _ _ _ H1 H2)
    | _ => idtac
    end; subst; try congruence; try lia.
Qed.

Lemma frequency_ordered_sorted d now start_at fl :
  StronglySorted (fun a b => Entry.by_frequency start_at a b = true)
    (Entry.frequency_ordered d now start_at fl).
Proof.
  apply order_by_sorted; [apply by_frequency_total | apply by_frequency_trans].
Qed.

(** An item of a page of the frequency view sits in the ordered statement at
    the page's offset plus its index, next to its feed's rank. *)
Lemma select_page_by_frequency_lookup d now per_page lim start_at page fl
    items k (e : row) :
  Entry.select_page_by_frequency d now per_page lim start_at page fl = Ok items ->
  items !! k = Some e ->
  exists r,
    Entry.frequency_ordered d now start_at fl !! ((page - 1) * per_page + k)%nat
      = Some (e, r) /\
    Entry.subquery_rank d (now - timedelta_days 14) e = Some r.
Proof.
  intros Hitems Hk. apply select_page_by_frequency_items in Hitems as ->.
  rewrite list_lookup_fmap in Hk.
  destruct (take _ _ !! k) as [[e' r]|] eqn:Hp; [|done].
  simpl in Hk. injection Hk as ->. exists r.
  apply lookup_take_Some in Hp as [Hp _]. rewrite lookup_drop in Hp.
  split; [done|].
  apply list_elem_of_lookup_2, frequency_ordered_filtered in Hp. by destruct Hp.
Qed.

(** C5.  Across the pages of the frequency view an entry is at position
    [(page - 1) * per_page + index].  An entry updated within the 48 hours
    before [start_at] comes before every entry updated earlier than that,
    whatever the ranks of their feeds; and of two entries of one bucket the
    one that comes first has the lower rank or, the ranks being equal, the
    later update. *)
Theorem frequency_pages_order d now per_page lim start_at fl
    p1 k1 p2 k2 items1 items2 (e1 e2 : row) u1 u2 :
  Entry.select_page_by_frequency d now per_page lim start_at p1 fl = Ok items1 ->
  Entry.select_page_by_frequency d now per_page lim start_at p2 fl = Ok items2 ->
  items1 !! k1 = Some e1 -> items2 !! k2 = Some e2 ->
  ts e1 "remote_updated" = Some u1 -> ts e2 "remote_updated" = Some u2 ->
  let pos1 := ((p1 - 1) * per_page + k1)%nat in
  let pos2 := ((p2 - 1) * per_page + k2)%nat in
  (start_at - timedelta_hours 48 <= u1 <= start_at ->
   u2 < start_at - timedelta_hours 48 ->
   (pos1 < pos2)%nat) /\
  ((pos1 < pos2)%nat ->
   Entry.older_bucket start_at e1 = Entry.older_bucket start_at e2 ->
   exists r1 r2,
     Entry.subquery_rank d (now - timedelta_days 14) e1 = Some r1 /\
     Entry.subquery_rank d (now - timedelta_days 14) e2 = Some r2 /\
     r1 <= r2 /\ (r1 = r2 -> u2 <= u1)).
Proof.
  intros H1 H2 Hk1 Hk2 Hu1 Hu2 pos1 pos2.
  destruct (select_page_by_frequency_lookup _ _ _ _ _ _ _ _ _ _ H1 Hk1)
    as (r1 & Hp1 & Hr1).
  destruct (select_page_by_frequency_lookup _ _ _ _ _ _ _ _ _ _ H2 Hk2)
    as (r2 & Hp2 & Hr2).
  fold pos1 in Hp1. fold pos2 in Hp2.
  pose proof (frequency_ordered_sorted d now start_at fl) as Hs.
  split.
  - intros Hrecent Hold.
    assert (Entry.older_bucket start_at e1 = false) as Hb1.
    { unfold Entry.older_bucket. rewrite Hu1. apply andb_false_iff. right. lia. }
    assert (Entry.older_bucket start_at e2 = true) as Hb2.
    { unfold Entry.older_bucket. rewrite Hu2. unfold timedelta_hours in *.
      apply andb_true_iff. lia. }
    destruct (Nat.lt_trichotomy pos1 pos2) as [Hlt|[Heq|Hgt]]; [done| |].
    + rewrite Heq, Hp2 in Hp1. congruence.
    + pose proof (StronglySorted_lookup _ _ _ _ _ _ Hs Hgt Hp2 Hp1) as Hle.
      unfold Entry.by_frequency in Hle. simpl in Hle.
      rewrite Hb1, Hb2 in Hle. done.
  - intros Hlt Hsame. exists r1, r2. split; [done|]. split; [done|].
    pose proof (StronglySorted_lookup _ _ _ _ _ _ Hs Hlt Hp1 Hp2) as Hle.
    unfold Entry.by_frequency in Hle. simpl in Hle.
    rewrite bool_decide_true in Hle by done.
    case_bool_decide as Hr.
    + split; [lia|]. intros _. unfold by_desc in Hle.
      rewrite Hu1, Hu2 in Hle. simpl in Hle. lia.
    + split; [lia|]. intros ?. done.
Qed.

Lemma frequency_pages_order_witness :
  Entry.select_page_by_frequency timeline t_ref 20 20 t_ref 1 no_filters
    = Ok (busy_entry <$> seq 1 20) /\
  Entry.select_page_by_frequency timeline t_ref 20 20 t_ref 3 no_filters
    = Ok ((busy_entry <$> seq 41 5) ++ [quiet_entry]) /\
  Entry.subquery_rank timeline (t_ref - timedelta_days 14) (busy_entry 1) = Some 5 /\
  Entry.subquery_rank timeline (t_ref - timedelta_days 14) quiet_entry = Some 1 /\
  ((1 - 1) * 20 + 0 < (3 - 1) * 20 + 5)%nat.
Proof.
  assert (Entry.select_page_by_frequency timeline t_ref 20 20 t_ref 1 no_filters
            = Ok (busy_entry <$> seq 1 20)) as Hp1 by reflexivity.
  assert (Entry.select_page_by_frequency timeline t_ref 20 20 t_ref 3 no_filters
            = Ok ((busy_entry <$> seq 41 5) ++ [quiet_entry])) as Hp3
    by reflexivity.
  split; [exact Hp1|]. split; [exact Hp3|].
  split; [vm_compute; reflexivity|]. split; [vm_compute; reflexivity|].
  refine (proj1 (frequency_pages_order timeline t_ref 20 20 t_ref no_filters
            1 0 3 5 _ _ (busy_entry 1) quiet_entry
            (t_ref - timedelta_hours 1) (t_ref - timedelta_hours 72)
            Hp1 Hp3 _ _ _ _) _ _).
  - reflexivity.
  - reflexivity.
  - reflexivity.
  - reflexivity.
  - vm_compute. split; discriminate.
  - vm_compute. reflexivity.
Defined.

(** Only entries whose feed has a row in the rank subquery reach a page of the
    frequency view. *)
Lemma select_page_by_frequency_ranked d now per_page lim start_at page fl items e :
  Entry.select_page_by_frequency d now per_page lim start_at page fl = Ok items ->
  e ∈ items ->
  is_Some (Entry.subquery_rank d (now - timedelta_days 14) e).
Proof.
  intros Hitems He. apply list_elem_of_lookup in He as [k Hk].
  destruct (select_page_by_frequency_lookup _ _ _ _ _ _ _ _ _ _ Hitems Hk)
    as (r & _ & Hr).
  by exists r.
Qed.

(** C6.  A feed whose only entry was updated a month ago: the entry matches
    the (empty) filters and the chronological view returns it, but no page of
    the frequency view does, whatever the page, page size, limit and
    reference instant. *)
Theorem frequency_view_drops_dormant_feed per_page lim start_at page :
  filtered_query dormant_only no_filters = [dormant_entry] /\
  Entry.select_page_chronologically dormant_only 1 None no_filters
    = [dormant_entry] /\
  (Entry.select_page_by_frequency dormant_only t_ref per_page lim start_at page
     no_filters = Ok []
   \/ Entry.select_page_by_frequency dormant_only t_ref per_page lim start_at page
        no_filters = Raise NotFound).
Proof.
  split; [reflexivity|]. split; [reflexivity|].
  assert (Entry.frequency_ordered dormant_only t_ref start_at no_filters = [])
    as Hempty by (vm_compute; reflexivity).
  unfold Entry.select_page_by_frequency, paginate, execute, limit, offset, from_rows.
  cbn [sel_rows sel_limit sel_offset].
  rewrite Hempty, drop_nil, take_nil.
  destruct (_ || _); [by right|].
  destruct (bool_decide _); [by left|by right].
Qed.

(** ** parser.py: selecting the parser class *)

Lemma and_then_ok {A B} (m : result A) (k : A -> result B) (b : B) :
  and_then m k = Ok b -> exists a, m = Ok a /\ k a = Ok b.
Proof. destruct m as [a|e]; simpl; [eauto | discriminate]. Qed.

Lemma first_compatible_sound classes feed_url feed cls :
  first_compatible classes feed_url feed = Ok cls ->
  (cls = BaseParser /\
   Forall (fun c => is_compatible c feed_url feed = Ok false) classes)
  \/ (exists before after,
        classes = before ++ cls :: after /\
        is_compatible cls feed_url feed = Ok true /\
        Forall (fun c => is_compatible c feed_url feed = Ok false) before).
Proof.
  revert cls. induction classes as [|c rest IH]; intros cls; simpl.
  - intros [= <-]. left. by split.
  - intros H. apply and_then_ok in H as ([|] & Hc & H).
    + injection H as <-. right. exists [], rest. by repeat split.
    + destruct (IH cls H) as [[-> Hall]|(before & after & -> & Hcls & Hall)].
      * left. split; [done|]. by constructor.
      * right. exists (c :: before), after. repeat split; [done|]. by constructor.
Qed.

(** X1.  The class that parser selection returns is the first one, in the
    order the module defines the subclasses, whose compatibility test
    succeeds; the base class is returned only when every test fails. *)
Theorem select_parser_first_match feed_url feed cls :
  select_parser feed_url feed = Ok cls ->
  (cls = BaseParser /\
   Forall (fun c => is_compatible c feed_url feed = Ok false) subclasses)
  \/ (exists before after,
        subclasses = before ++ cls :: after /\
        is_compatible cls feed_url feed = Ok true /\
        Forall (fun c => is_compatible c feed_url feed = Ok false) before).
Proof. apply first_compatible_sound. Qed.

Lemma select_parser_first_match_witness :
  (MastodonUserParser = BaseParser /\
   Forall (fun c => is_compatible c "https://example.org/feed"
                      (plain_feed (Some "Mastodon")) = Ok false) subclasses)
  \/ (exists before after,
        subclasses = before ++ MastodonUserParser :: after /\
        is_compatible MastodonUserParser "https://example.org/feed"
          (plain_feed (Some "Mastodon")) = Ok true /\
        Forall (fun c => is_compatible c "https://example.org/feed"
                           (plain_feed (Some "Mastodon")) = Ok false) before).
Proof.
  apply (select_parser_first_match "https://example.org/feed"
           (plain_feed (Some "Mastodon")) MastodonUserParser).
  vm_compute. reflexivity.
Defined.

(** X2.  For a feed whose URL contains [github.com] and [private.atom] and
    whose link names no known aggregator, the Mastodon class is selected when
    the generator mentions mastodon, and the GitHub class otherwise: the
    Mastodon class is defined, and so tried, first. *)
Theorem select_parser_github_url feed_url feed link :
  contains "github.com" feed_url = true ->
  contains "private.atom" feed_url = true ->
  fd_link feed = Some link ->
  existsb (fun domain => contains domain link) KNOWN_AGGREGATORS = false ->
  select_parser feed_url feed
  = Ok (if contains "mastodon" (lower (default EmptyString (fd_generator feed)))
        then MastodonUserParser else GithubFeedParser).
Proof.
  intros Hg Hp Hl Hagg. unfold select_parser, subclasses.
  cbn [first_compatible is_compatible]. rewrite Hl.
  cbn [getitem and_then]. rewrite Hagg.
  destruct (contains "mastodon" _); [done|].
  by rewrite Hg, Hp.
Qed.

Lemma select_parser_github_url_witness :
  select_parser "https://github.com/user.private.atom?token=t"
    (plain_feed (Some "Mastodon v4"))
  = Ok MastodonUserParser.
Proof.
  apply (select_parser_github_url "https://github.com/user.private.atom?token=t"
           (plain_feed (Some "Mastodon v4")) "https://example.org/");
    vm_compute; reflexivity.
Defined.

(** X3.  Selection subscripts the feed's link before anything else: for a feed
    document without a link it raises [KeyError], whatever the URL and the
    generator. *)
Theorem select_parser_no_link feed_url feed :
  fd_link feed = None -> select_parser feed_url feed = Raise KeyError.
Proof. intros Hl. unfold select_parser. simpl. by rewrite Hl. Qed.

Lemma select_parser_no_link_witness :
  select_parser "https://github.com/user.private.atom"
    {| fd_link := None; fd_generator := Some "Mastodon"; fd_title := None;
       fd_icon := None; fd_webfeeds_icon := None; fd_updated_parsed := None;
       fd_entries := [] |}
  = Raise KeyError.
Proof. by apply select_parser_no_link. Defined.

(** ** parser.py: parsing an entry *)

Lemma parse_ok_inv E cls feed entry v :
  parse E cls feed entry = Ok v ->
  exists title title_url avatar_url username body media_url remote_id
         remote_created remote_updated,
    is_Some (e_link entry) /\ is_Some (e_summary entry) /\
    parse_title cls feed entry = Ok title /\
    parse_title_url entry = Ok title_url /\
    parse_avatar_url E cls entry = Ok avatar_url /\
    parse_username entry = Ok username /\
    parse_body E cls entry = Ok body /\
    parse_media_url E cls entry = Ok media_url /\
    parse_remote_id entry = Ok remote_id /\
    parse_remote_created E entry = Ok remote_created /\
    parse_remote_updated E entry = Ok remote_updated /\
    v = <["title" := title]> (<["title_url" := title_url]>
        (<["avatar_url" := avatar_url]> (<["username" := username]>
        (<["body" := body]> (<["media_url" := media_url]>
        (<["remote_id" := remote_id]> (<["remote_created" := remote_created]>
        (<["remote_updated" := remote_updated]> (∅ : row))))))))).
Proof.
  unfold parse. intros H.
  destruct (bool_decide (e_link entry = None)) eqn:Hlink; [discriminate|].
  destruct (bool_decide (e_summary entry = None)) eqn:Hsum; [discriminate|].
  cbn [orb] in H.
  apply bool_decide_eq_false in Hlink, Hsum.
  apply and_then_ok in H as (title & ? & H).
  apply and_then_ok in H as (title_url & ? & H).
  apply and_then_ok in H as (avatar_url & ? & H).
  apply and_then_ok in H as (username & ? & H).
  apply and_then_ok in H as (body & ? & H).
  apply and_then_ok in H as (media_url & ? & H).
  apply and_then_ok in H as (remote_id & ? & H).
  apply and_then_ok in H as (remote_created & ? & H).
  apply and_then_ok in H as (remote_updated & ? & H).
  injection H as <-.
  exists title, title_url, avatar_url, username, body, media_url, remote_id,
    remote_created, remote_updated.
  repeat split; try done.
  - by destruct (e_link entry).
  - by destruct (e_summary entry).
Qed.

Lemma parse_malformed E cls feed entry :
  e_link entry = None \/ e_summary entry = None ->
  parse E cls feed entry = Raise ValueError.
Proof.
  intros [H|H]; unfold parse; rewrite H.
  - done.
  - rewrite (bool_decide_true (None = None)) by done. by rewrite orb_true_r.
Qed.

(** An entry whose parsing raises leaves no trace in the loop of
    [sync_feed]. *)
Lemma sync_entries_skip schema E cls feed db_feed clock k pre bad post tbl x :
  parse E cls feed bad = Raise x ->
  sync_entries schema E cls feed db_feed clock k (pre ++ bad :: post) tbl
  = sync_entries schema E cls feed db_feed clock k (pre ++ post) tbl.
Proof.
  intros Hbad. revert k tbl. induction pre as [|e pre IH]; intros k tbl; simpl.
  - by rewrite Hbad.
  - destruct (parse E cls feed e) as [values|]; [|apply IH].
    destruct (upsert _ _ _ _) as [tbl'|]; simpl; [apply IH|done].
Qed.

(** X4.  An entry without a link or without a summary makes [parse] raise
    [ValueError], for every parser class and before any request is made; the
    loop of [sync_feed] leaves it out and goes on: the feed is synced as if
    the entry were not in it. *)
Theorem sync_entries_skips_malformed schema E cls feed db_feed clock k
    pre bad post tbl :
  e_link bad = None \/ e_summary bad = None ->
  parse E cls feed bad = Raise ValueError /\
  sync_entries schema E cls feed db_feed clock k (pre ++ bad :: post) tbl
  = sync_entries schema E cls feed db_feed clock k (pre ++ post) tbl.
Proof.
  intros Hbad. pose proof (parse_malformed E cls feed bad Hbad) as Hp.
  split; [exact Hp|]. by eapply sync_entries_skip.
Qed.

Lemma sync_entries_skips_malformed_witness :
  parse offline_env BaseParser (plain_feed None) raw_no_summary = Raise ValueError /\
  sync_entries fields_schema offline_env BaseParser (plain_feed None) rss_feed_row
    (fun _ => 2000) 0 ([raw_post "a" 5] ++ raw_no_summary :: [raw_post "b" 6]) []
  = sync_entries fields_schema offline_env BaseParser (plain_feed None) rss_feed_row
      (fun _ => 2000) 0 ([raw_post "a" 5] ++ [raw_post "b" 6]) [].
Proof.
  apply (sync_entries_skips_malformed fields_schema offline_env BaseParser
           (plain_feed None) rss_feed_row (fun _ => 2000) 0%nat
           [raw_post "a" 5] raw_no_summary [raw_post "b" 6] []).
  right. reflexivity.
Defined.






(** X7.  A parsed entry has the nine keys of [FIELDS] and no other; its
    [title_url] is the entry's link, its [remote_id] the id the source gives
    and its [username] the source's author, [None] when there is none. *)
Theorem parse_fields E cls feed entry v :
  parse E cls feed entry = Ok v ->
  dom v = list_to_set FIELDS /\
  v !! "title_url" = VStr <$> e_link entry /\
  v !! "remote_id" = VStr <$> e_id entry /\
  v !! "username" = Some (str_or_none (e_author entry)).
Proof.
  intros H. apply parse_ok_inv in H
    as (? & tu & ? & un & ? & ? & rid & ? & ? & _ & _ & _ & Htu & _ & Hun & _ & _
        & Hrid & _ & _ & ->).
  split; [|split; [|split]].
  - rewrite !dom_insert_L, dom_empty_L. unfold FIELDS. simpl. set_solver.
  - unfold parse_title_url in Htu. destruct (e_link entry); [|discriminate].
    injection Htu as <-. done.
  - unfold parse_remote_id in Hrid. destruct (e_id entry); [|discriminate].
    injection Hrid as <-. done.
  - injection Hun as <-. done.
Qed.

Lemma parse_fields_witness :
  exists v,
    parse offline_env BaseParser (plain_feed None) (raw_post "a" 5) = Ok v /\
    dom v = list_to_set FIELDS /\
    v !! "title_url" = Some (VStr "https://example.org/post") /\
    v !! "remote_id" = Some (VStr "a") /\
    v !! "username" = Some VNull.
Proof.
  destruct (parse offline_env BaseParser (plain_feed None) (raw_post "a" 5))
    as [v|] eqn:Hv; [|discriminate Hv].
  exists v. split; [done|]. exact (parse_fields _ _ _ _ _ Hv).
Defined.

Lemma parse_remote_created_env E1 E2 entry :
  (forall st, to_datetime E1 st = to_datetime E2 st) ->
  parse_remote_created E1 entry = parse_remote_created E2 entry.
Proof.
  intros H. unfold parse_remote_created.
  destruct (e_published_parsed entry); simpl; [by rewrite H|done].
Qed.

Lemma parse_remote_updated_env E1 E2 entry :
  (forall st, to_datetime E1 st = to_datetime E2 st) ->
  parse_remote_updated E1 entry = parse_remote_updated E2 entry.
Proof.
  intros H. unfold parse_remote_updated.
  destruct (e_updated_parsed entry); simpl; [by rewrite H|done].
Qed.

(** X8.  The GitHub parser reads neither the markup nor the network: what it
    returns depends on the environment through the conversion of times only.
    Its entries have no body and no media, and their avatar is the first
    thumbnail of the entry. *)
Theorem github_parse_offline E1 E2 feed entry :
  (forall st, to_datetime E1 st = to_datetime E2 st) ->
  parse E1 GithubFeedParser feed entry = parse E2 GithubFeedParser feed entry /\
  (forall v, parse E1 GithubFeedParser feed entry = Ok v ->
     v !! "body" = Some VNull /\ v !! "media_url" = Some VNull /\
     first_thumbnail_url entry = Ok (col v "avatar_url")).
Proof.
  intros H. split.
  - unfold parse. destruct (_ || _); [done|].
    cbn [parse_avatar_url parse_body parse_media_url].
    by rewrite (parse_remote_created_env E1 E2), (parse_remote_updated_env E1 E2).
  - intros v Hv. apply parse_ok_inv in Hv
      as (? & ? & av & ? & b & m & ? & ? & ? & _ & _ & _ & _ & Hav & _ & Hb & Hm
          & _ & _ & _ & ->).
    cbn in Hav, Hb, Hm. injection Hb as <-. injection Hm as <-.
    repeat split; done.
Qed.

Lemma github_parse_offline_witness :
  parse offline_env GithubFeedParser (plain_feed None) (raw_post "a" 5)
  = parse offline_env GithubFeedParser (plain_feed None) (raw_post "a" 5) /\
  (forall v,
     parse offline_env GithubFeedParser (plain_feed None) (raw_post "a" 5) = Ok v ->
     v !! "body" = Some VNull /\ v !! "media_url" = Some VNull /\
     first_thumbnail_url (raw_post "a" 5) = Ok (col v "avatar_url")).
Proof.
  apply (github_parse_offline offline_env offline_env (plain_feed None)
           (raw_post "a" 5)).
  reflexivity.
Defined.

(** X9.  For the GitHub parser an entry that has a link and a summary but no
    [media_thumbnail] raises [KeyError]: the loop skips every such entry. *)
Theorem github_parse_needs_thumbnail E feed entry :
  is_Some (e_link entry) -> is_Some (e_summary entry) ->
  e_media_thumbnail entry = None ->
  parse E GithubFeedParser feed entry = Raise KeyError.
Proof.
  intros [l Hl] [m Hm] Ht. unfold parse. rewrite Hl, Hm.
  rewrite !bool_decide_false by done. cbn [orb].
  unfold parse_title, parse_title_url, parse_avatar_url, first_thumbnail_url.
  rewrite Ht, Hl. by destruct (e_title entry).
Qed.

Lemma github_parse_needs_thumbnail_witness :
  parse offline_env GithubFeedParser (plain_feed None)
    {| e_link := Some "https://github.com/a"; e_summary := Some "s";
       e_title := Some "t"; e_author := None; e_source_icon := None;
       e_media_thumbnail := None; e_media_content := None; e_id := Some "i";
       e_published_parsed := None; e_updated_parsed := None |}
  = Raise KeyError.
Proof. apply github_parse_needs_thumbnail; [by eexists..|done]. Defined.

(** ** parser.py: sync_feed and sync_all_feeds *)

(** A feed fetched less than [UPDATE_AFTER_MINUTES] before the first reading
    of the clock is left alone: the feed object and the entries table are
    returned as they were, whatever the network would answer. *)
Lemma sync_feed_within_cooldown schema E clock t1 t2 t3 (db_feed : row) tbl
    last_fetch :
  ts db_feed "last_fetch" = Some last_fetch ->
  t1 - last_fetch < timedelta_minutes UPDATE_AFTER_MINUTES ->
  sync_feed schema E clock t1 t2 t3 db_feed tbl = Ok (db_feed, tbl).
Proof.
  intros Hlf Hlt. unfold sync_feed, fetched_recently. rewrite Hlf.
  by rewrite (proj2 (Z.ltb_lt _ _) Hlt).
Qed.

(** X10.  When the fetched document carries an update time less than
    [UPDATE_AFTER_MINUTES] before the third reading of the clock, no entry is
    parsed or written, whatever entries the document has; the feed's
    [last_fetch] has been moved to the second reading all the same. *)
Theorem sync_feed_document_up_to_date schema E clock t1 t2 t3 (db_feed : row) tbl
    url feed updated_parsed updated :
  fetched_recently db_feed t1 = false ->
  col db_feed "url" = VStr url ->
  feedparser_parse E url = Ok feed ->
  fd_updated_parsed feed = Some updated_parsed ->
  to_datetime E updated_parsed = Ok updated ->
  t3 - updated < timedelta_minutes UPDATE_AFTER_MINUTES ->
  sync_feed schema E clock t1 t2 t3 db_feed tbl
  = Ok (<["last_fetch" := VTime t2]> db_feed, tbl).
Proof.
  intros Hrecent Hurl Hfeed Hup Hconv Hlt. unfold sync_feed.
  rewrite Hrecent. rewrite col_insert_ne by done. rewrite Hurl.
  rewrite Hfeed. cbn [and_then]. rewrite Hup, Hconv. cbn [and_then].
  by rewrite (proj2 (Z.ltb_lt _ _) Hlt).
Qed.

Lemma sync_feed_document_up_to_date_witness :
  sync_feed fields_schema (serving fresh_feed) (fun _ => 0) 9001 9002 9003
    stale_feed_row []
  = Ok (<["last_fetch" := VTime 9002]> stale_feed_row, []).
Proof.
  apply (sync_feed_document_up_to_date fields_schema (serving fresh_feed)
           (fun _ => 0) 9001 9002 9003 stale_feed_row []
           "https://example.org/news" fresh_feed (at_second 9000) 9000);
    try reflexivity.
Defined.

Lemma sync_feeds_app schema E clocks times i pre post synced tbl :
  sync_feeds schema E clocks times i (pre ++ post) synced tbl
  = and_then (sync_feeds schema E clocks times i pre synced tbl) (fun r =>
      sync_feeds schema E clocks times (i + length pre) post r.1 r.2).
Proof.
  revert i synced tbl. induction pre as [|f pre IH]; intros i synced tbl; simpl.
  - by rewrite Nat.add_0_r.
  - destruct (sync_feed _ _ _ _ _ _ _ _) as [r|]; simpl; [|done].
    rewrite IH. by rewrite Nat.add_succ_r.
Qed.

(** X11.  In [sync_all_feeds] of the parser module a feed whose sync raises
    ends the batch with that exception, before the commit: the feeds after it
    are not synced, and what the feeds before it have written is not
    committed. *)
Theorem sync_all_feeds_aborts schema E clocks times d pre db_feed post
    synced tbl x :
  feeds d = pre ++ db_feed :: post ->
  sync_feeds schema E clocks times 0 pre [] (entries d) = Ok (synced, tbl) ->
  sync_feed schema E (clocks (length pre)) (times (length pre)).1.1
    (times (length pre)).1.2 (times (length pre)).2 db_feed tbl = Raise x ->
  sync_all_feeds schema E clocks times d = Raise x.
Proof.
  intros Hd Hpre Hx. unfold sync_all_feeds.
  rewrite Hd, sync_feeds_app, Hpre. simpl. by rewrite Hx.
Qed.

Lemma sync_all_feeds_aborts_witness :
  sync_all_feeds fields_schema (serving linkless_feed) (fun _ _ => 0)
    (fun _ => (1100, 1101, 1102))
    {| feeds := [rss_feed_row; stale_feed_row]; entries := [] |}
  = Raise KeyError.
Proof.
  apply (sync_all_feeds_aborts fields_schema (serving linkless_feed)
           (fun _ _ => 0) (fun _ => (1100, 1101, 1102))
           {| feeds := [rss_feed_row; stale_feed_row]; entries := [] |}
           [rss_feed_row] stale_feed_row [] [rss_feed_row] []);
    reflexivity.
Defined.

Lemma sync_feeds_all_recent schema E clocks times i todo synced tbl :
  (forall j f, todo !! j = Some f ->
     fetched_recently f (times (i + j)%nat).1.1 = true) ->
  sync_feeds schema E clocks times i todo synced tbl = Ok (synced ++ todo, tbl).
Proof.
  revert i synced. induction todo as [|f todo IH]; intros i synced Hall; simpl.
  - by rewrite app_nil_r.
  - unfold sync_feed. specialize (Hall 0%nat f eq_refl) as Hf.
    rewrite Nat.add_0_r in Hf. rewrite Hf. simpl.
    rewrite IH.
    + by rewrite <- app_assoc.
    + intros j g Hg. rewrite Nat.add_succ_l, <- Nat.add_succ_r. by apply Hall.
Qed.

(** X12.  When every feed was fetched less than [UPDATE_AFTER_MINUTES] before
    its turn, [sync_all_feeds] of the parser module returns the database as
    it was, whatever the network would answer. *)
Theorem sync_all_feeds_all_recent schema E clocks times d :
  (forall i f, feeds d !! i = Some f -> fetched_recently f (times i).1.1 = true) ->
  sync_all_feeds schema E clocks times d = Ok d.
Proof.
  intros Hall. unfold sync_all_feeds.
  rewrite sync_feeds_all_recent by done. simpl. by destruct d.
Qed.

Lemma sync_all_feeds_all_recent_witness :
  sync_all_feeds fields_schema (serving linkless_feed) (fun _ _ => 0)
    (fun _ => (1100, 1101, 1102))
    {| feeds := [rss_feed_row]; entries := [] |}
  = Ok {| feeds := [rss_feed_row]; entries := [] |}.
Proof.
  apply sync_all_feeds_all_recent.
  intros [|i] f Hf; [|done]. injection Hf as <-. reflexivity.
Defined.

(** ** tasks.py: upsert_entries *)

Lemma upsert_ok_shape schema t_exec (values : row) tbl tbl' :
  upsert schema t_exec values tbl = Ok tbl' ->
  (existsb (same_key values) tbl = true /\
   tbl' = map (fun r => if same_key values r then values ∪ r else r) tbl)
  \/ (existsb (same_key values) tbl = false /\
      exists new_id,
        tbl' = tbl ++ [<["id" := new_id]> (values ∪ entry_defaults t_exec)]).
Proof.
  unfold upsert. intros H.
  destruct (negb (bool_decide (map_Forall (column_known schema) values)));
    [discriminate|].
  destruct (negb (bool_decide (map_Forall (column_accepts schema) values)));
    [discriminate|].
  destruct (negb (not_null_ok schema _)); [discriminate|].
  destruct (id_taken _ tbl); [discriminate|].
  destruct (existsb (same_key values) tbl).
  - destruct (bool_decide _); [discriminate|]. injection H as <-. by left.
  - injection H as <-. right. split; [done|]. by eexists.
Qed.

Lemma col_union_l (m r : row) c : col m c <> VNull -> col (m ∪ r) c = col m c.
Proof.
  intros H. apply col_not_null in H as (v & Hv & _).
  rewrite (col_lookup m c v Hv). apply col_lookup. by apply lookup_union_Some_l.
Qed.

Lemma sql_eq_not_null_r a b : sql_eq a b = true -> b <> VNull.
Proof. destruct a, b; simpl; done. Qed.

(** The update of a conflicting row does not move it to another key. *)
Lemma same_key_update_key (values r : row) feed_id remote_id :
  same_key values r = true ->
  key_matches feed_id remote_id (values ∪ r) = key_matches feed_id remote_id r.
Proof.
  unfold same_key, key_matches. intros H.
  apply andb_true_iff in H as [Hf Hr].
  rewrite !col_union_l by (by eapply sql_eq_not_null_r).
  by rewrite (sql_eq_eq _ _ Hf), (sql_eq_eq _ _ Hr).
Qed.

Lemma upsert_keeps_unique schema t_exec (values : row) tbl tbl' :
  upsert schema t_exec values tbl = Ok tbl' ->
  unique_keys tbl -> unique_keys tbl'.
Proof.
  intros Hup Huniq fid rid.
  apply upsert_ok_shape in Hup as [[_ ->]|[Hnone (new_id & ->)]].
  - specialize (Huniq fid rid). unfold rows_with_key in *.
    etrans; [|exact Huniq]. clear Huniq.
    induction tbl as [|r tbl IH]; [done|].
    rewrite fmap_cons, !filter_cons.
    assert (key_matches fid rid (if same_key values r then values ∪ r else r)
            = key_matches fid rid r) as ->.
    { destruct (same_key values r) eqn:Hs; [by apply same_key_update_key|done]. }
    destruct (decide (key_matches fid rid r = true)); simpl;
      [apply le_n_S|]; exact IH.
  - unfold rows_with_key. rewrite filter_app, length_app.
    rewrite filter_cons, filter_nil.
    destruct (decide (key_matches fid rid _ = true)) as [Hnew|]; simpl.
    2:{ specialize (Huniq fid rid). unfold rows_with_key in Huniq. lia. }
    enough (filter (fun r => key_matches fid rid r = true) tbl = []) as -> by done.
    apply existsb_filter_nil in Hnone. rewrite <- Hnone.
    apply list_filter_iff. intros r.
    unfold key_matches in Hnew. apply andb_true_iff in Hnew as [Hf Hr].
    apply sql_eq_eq in Hf, Hr.
    rewrite col_insert_ne in Hf, Hr by done.
    assert (col values "feed_id" = VInt fid) as Hvf.
    { unfold col in *. rewrite lookup_union in Hf.
      destruct (values !! "feed_id"); simpl in *; [|done].
      by destruct (entry_defaults t_exec !! "feed_id"). }
    assert (col values "remote_id" = rid) as Hvr.
    { unfold col in *. rewrite lookup_union in Hr.
      destruct (values !! "remote_id"); simpl in *; [|done].
      by destruct (entry_defaults t_exec !! "remote_id"). }
    unfold same_key, key_matches. by rewrite Hvf, Hvr.
Qed.

Lemma upsert_entries_from_unique clock k utcnow feed_id entries_values tbl :
  unique_keys tbl ->
  unique_keys (upsert_entries_from clock k utcnow feed_id entries_values tbl).1.
Proof.
  revert k tbl. induction entries_values as [|e es IH]; intros k tbl Hu; simpl.
  - done.
  - destruct (upsert _ _ _ _) as [tbl'|] eqn:Hup; [|done].
    apply IH. by eapply upsert_keeps_unique.
Qed.



Lemma upsert_entries_from_ext clock1 clock2 k1 k2 utcnow feed_id entries_values tbl :
  (forall i, clock1 (k1 + i)%nat = clock2 (k2 + i)%nat) ->
  upsert_entries_from clock1 k1 utcnow feed_id entries_values tbl
  = upsert_entries_from clock2 k2 utcnow feed_id entries_values tbl.
Proof.
  revert k1 k2 tbl. induction entries_values as [|e es IH]; intros k1 k2 tbl H; simpl.
  - done.
  - pose proof (H 0%nat) as H0. rewrite !Nat.add_0_r in H0. rewrite H0.
    destruct (upsert _ _ _ _); [|done].
    apply IH. intros i. rewrite !Nat.add_succ_l, <- !Nat.add_succ_r. apply H.
Qed.

Lemma upsert_entries_from_app clock k utcnow feed_id l1 l2 tbl :
  upsert_entries_from clock k utcnow feed_id (l1 ++ l2) tbl
  = match upsert_entries_from clock k utcnow feed_id l1 tbl with
    | (tbl1, None) =>
        upsert_entries_from clock (k + length l1) utcnow feed_id l2 tbl1
    | (tbl1, Some e) => (tbl1, Some e)
    end.
Proof.
  revert k tbl. induction l1 as [|e l1 IH]; intros k tbl; simpl.
  - by rewrite Nat.add_0_r.
  - destruct (upsert _ _ _ _); [|done].
    rewrite IH. by rewrite Nat.add_succ_r.
Qed.

(** X14.  A batch is written entry by entry, each entry committed on its own:
    upserting [l1 ++ l2] is upserting [l1] and then, on the table that
    leaves, [l2]; and when a statement of [l1] is refused the result is the
    table committed up to that statement, with the exception, and [l2] is not
    written. *)
Theorem upsert_entries_app clock utcnow feed_id l1 l2 tbl :
  upsert_entries clock utcnow feed_id (l1 ++ l2) tbl
  = match upsert_entries clock utcnow feed_id l1 tbl with
    | (tbl1, None) =>
        upsert_entries (fun i => clock (length l1 + i)%nat) utcnow feed_id l2 tbl1
    | (tbl1, Some e) => (tbl1, Some e)
    end.
Proof.
  unfold upsert_entries. rewrite upsert_entries_from_app.
  destruct (upsert_entries_from clock 0 utcnow feed_id l1 tbl) as [tbl1 [e|]];
    [done|].
  apply upsert_entries_from_ext. intros i. simpl. done.
Qed.

(** The table the two branches of the statement leave for a canonical
    entry. *)
Definition upserted (utcnow feed_id : Z) (e : row) (r : row) : row :=
  let values := <["feed_id" := VInt feed_id]> (<["updated" := VTime utcnow]> e) in
  if same_key values r then values ∪ r else r.

Lemma upserted_idemp utcnow feed_id (e : row) (r : row) :
  canonical e ->
  upserted utcnow feed_id e (upserted utcnow feed_id e r)
  = upserted utcnow feed_id e r.
Proof.
  intros Hcan. unfold upserted.
  destruct (same_key _ r) eqn:Hs; [|by rewrite Hs].
  rewrite (values_same_key utcnow feed_id e Hcan).
  rewrite (values_key_matches utcnow feed_id e Hcan).
  by rewrite (assoc_L (∪)), (idemp_L (∪)).
Qed.

(** X15.  For a canonical entry the upsert is idempotent: writing the entry
    again, with the same [utcnow], leaves the table exactly as the first write
    left it. *)
Theorem upsert_entries_idempotent clock1 clock2 utcnow feed_id (e : row) tbl :
  canonical e ->
  upsert_entries clock2 utcnow feed_id [e]
    (upsert_entries clock1 utcnow feed_id [e] tbl).1
  = ((upsert_entries clock1 utcnow feed_id [e] tbl).1, None).
Proof.
  intros Hcan. unfold upsert_entries. simpl.
  rewrite (upsert_passes_checks utcnow (clock1 0%nat) feed_id e Hcan tbl).
  set (values := <["feed_id" := VInt feed_id]> (<["updated" := VTime utcnow]> e)).
  destruct (existsb (same_key values) tbl) eqn:Hex; simpl.
  - rewrite (upsert_passes_checks utcnow (clock2 0%nat) feed_id e Hcan).
    fold values.
    assert (existsb (same_key values)
              (map (fun r => if same_key values r then values ∪ r else r) tbl)
            = true) as ->.
    { apply existsb_exists in Hex as (r & Hr & Hs).
      apply existsb_exists. exists (values ∪ r). split.
      - apply in_map_iff. exists r. by rewrite Hs.
      - unfold values. rewrite (values_same_key utcnow feed_id e Hcan).
        apply (values_key_matches utcnow feed_id e Hcan). }
    simpl. f_equal. rewrite map_map. apply map_ext. intros r.
    apply (upserted_idemp utcnow feed_id e r Hcan).
  - rewrite (upsert_passes_checks utcnow (clock2 0%nat) feed_id e Hcan).
    fold values.
    set (new := <["id" := VInt (next_id tbl)]> (values ∪ entry_defaults (clock1 0%nat))).
    assert (same_key values new = true) as Hnew.
    { unfold values, new. rewrite (values_same_key utcnow feed_id e Hcan).
      fold values. rewrite insert_union_r by apply (values_lookup_id utcnow feed_id e Hcan).
      apply (values_key_matches utcnow feed_id e Hcan). }
    assert (existsb (same_key values) (tbl ++ [new]) = true) as ->.
    { rewrite existsb_app. simpl. by rewrite Hnew, orb_true_r. }
    simpl. f_equal. rewrite map_app. simpl. rewrite Hnew. f_equal.
    + rewrite <- (map_id tbl) at 2. apply map_ext_in. intros r Hr.
      destruct (same_key values r) eqn:Hs; [|done].
      assert (existsb (same_key values) tbl = true); [|congruence].
      apply existsb_exists. eauto.
    + f_equal. unfold new.
      rewrite insert_union_r by apply (values_lookup_id utcnow feed_id e Hcan).
      by rewrite (assoc_L (∪)), (idemp_L (∪)).
Qed.

Lemma upsert_entries_idempotent_witness :
  upsert_entries (fun _ => 300) 100 1 [post_v1]
    (upsert_entries (fun _ => 200) 100 1 [post_v1] [stored_post]).1
  = ((upsert_entries (fun _ => 200) 100 1 [post_v1] [stored_post]).1, None).
Proof.
  apply upsert_entries_idempotent.
  split; [apply (bool_decide_unpack _); vm_compute; exact I
         | repeat constructor; discriminate].
Defined.

Lemma upsert_other_feeds schema t_exec (values : row) tbl tbl' feed_id :
  col values "feed_id" = VInt feed_id ->
  upsert schema t_exec values tbl = Ok tbl' ->
  filter (fun r => col r "feed_id" <> VInt feed_id) tbl'
  = filter (fun r => col r "feed_id" <> VInt feed_id) tbl
  /\ (length tbl <= length tbl')%nat.
Proof.
  intros Hfid Hup.
  apply upsert_ok_shape in Hup as [[_ ->]|[_ (new_id & ->)]].
  - split; [|by rewrite length_map].
    induction tbl as [|r tbl IH]; [done|].
    cbn [map]. rewrite !filter_cons, IH.
    destruct (same_key values r) eqn:Hs; [|done].
    unfold same_key in Hs. apply andb_true_iff in Hs as [Hf _].
    apply sql_eq_eq in Hf. rewrite Hfid in Hf.
    rewrite !decide_False; [done|by intros []|intros []].
    rewrite col_union_l; by rewrite Hfid.
  - split; [|rewrite length_app; lia].
    rewrite filter_app, filter_cons, filter_nil.
    rewrite decide_False; [by rewrite app_nil_r|]. intros [].
    rewrite col_insert_ne by done. rewrite col_union_l; by rewrite Hfid.
Qed.

Lemma upsert_entries_from_other_feeds clock k utcnow feed_id entries_values tbl :
  filter (fun r => col r "feed_id" <> VInt feed_id)
    (upsert_entries_from clock k utcnow feed_id entries_values tbl).1
  = filter (fun r => col r "feed_id" <> VInt feed_id) tbl
  /\ (length tbl
      <= length (upsert_entries_from clock k utcnow feed_id entries_values tbl).1)%nat.
Proof.
  revert k tbl. induction entries_values as [|e es IH]; intros k tbl; simpl.
  - done.
  - destruct (upsert _ _ _ _) as [tbl'|] eqn:Hup; [|done].
    apply upsert_other_feeds with (feed_id := feed_id) in Hup as [Hf Hl];
      [|by rewrite col_insert_eq].
    destruct (IH (S k) tbl') as [IHf IHl]. split; [congruence|lia].
Qed.


(** ** tasks.py and models.py: frequency ranks *)

(** X17.  The rank of the batch ranker never decreases when the count grows,
    and lies between 1 and 5. *)
Theorem rank_of_count_monotone n m :
  n <= m ->
  rank_of_count n <= rank_of_count m /\ 1 <= rank_of_count n <= 5.
Proof.
  unfold rank_of_count. intros. repeat case_match; lia.
Qed.

Lemma rank_of_count_monotone_witness :
  rank_of_count 4 <= rank_of_count 299 /\ 1 <= rank_of_count 4 <= 5.
Proof. apply rank_of_count_monotone. lia. Defined.

Lemma freq_bucket_in_range n : Feed.freq_bucket n ∈ [1; 2; 3; 5].
Proof. unfold Feed.freq_bucket. repeat case_match; set_solver. Qed.

(** X18.  [Feed.freq_bucket] never answers 4: its ranks are 1, 2, 3 and 5, and
    it agrees with the batch ranker exactly on the counts below 45 and from
    300 on. *)
Theorem freq_bucket_range n :
  Feed.freq_bucket n ∈ [1; 2; 3; 5] /\
  (Feed.freq_bucket n = rank_of_count n <-> n < 45 \/ 300 <= n).
Proof.
  unfold Feed.freq_bucket, rank_of_count.
  split.
  - repeat case_match; set_solver.
  - repeat case_match; split; intros; lia.
Qed.

Lemma apply_ranks_frame L (r : row) c :
  c <> "frequency_rank" -> apply_ranks L r !! c = r !! c.
Proof.
  intros Hc. revert r. induction L as [|p L IH]; intros r; simpl; [done|].
  rewrite IH. case_bool_decide; [by rewrite lookup_insert_ne|done].
Qed.

(** What the loop of [set_frequency_ranks] makes of a feed row. *)
Lemma apply_ranks_feed_counts since d (f : row) :
  f ∈ feeds d ->
  apply_ranks (feed_counts since d) f
  = if 0 <? recent_count since (entries d) f
    then <["frequency_rank" := VInt (rank_of_count (recent_count since (entries d) f))]> f
    else f.
Proof.
  intros Hf. destruct (Z.ltb_spec 0 (recent_count since (entries d) f)) as [Hpos|Hz].
  - apply apply_ranks_some.
    + apply Forall_forall. intros p Hp Hid.
      apply elem_of_feed_counts in Hp as (_ & Hc & _).
      rewrite Hc. by apply recent_count_id.
    + apply Exists_exists. exists (f, recent_count since (entries d) f).
      split; [|done]. by apply elem_of_feed_counts.
  - apply apply_ranks_none, Forall_forall. intros p Hp Hid.
    apply elem_of_feed_counts in Hp as (_ & Hc & Hpos).
    rewrite (recent_count_id _ _ f) in Hc by done. lia.
Qed.


(** X20.  The rank recompute is idempotent: run again at the same time on the
    database it has left, it changes nothing. *)
Theorem set_frequency_ranks_idempotent now d :
  set_frequency_ranks now (set_frequency_ranks now d) = set_frequency_ranks now d.
Proof.
  unfold set_frequency_ranks. simpl. f_equal.
  rewrite !foldl_set_frequency_rank.
  set (since := now - timedelta_days 14).
  set (d' := {| feeds := map (apply_ranks (feed_counts since d)) (feeds d);
                entries := entries d |}).
  rewrite map_map. apply map_ext_in. intros f Hf.
  apply list_elem_of_In in Hf.
  assert (apply_ranks (feed_counts since d) f ∈ feeds d') as Hf'.
  { simpl. by apply list_elem_of_fmap_2. }
  rewrite (apply_ranks_feed_counts since d' _ Hf'). simpl.
  rewrite (recent_count_id since (entries d) f).
  2:{ unfold col. by rewrite apply_ranks_frame. }
  rewrite (apply_ranks_feed_counts since d f Hf).
  destruct (0 <? recent_count since (entries d) f); [|done].
  by rewrite insert_insert_eq.
Qed.

(** ** models.py: the filters and the retrievals *)

Lemma feed_has_spec d c v (e : row) :
  feed_has d c v e = true <->
  exists f : row, f ∈ feeds d /\ col f "id" = col e "feed_id" /\
                  col e "feed_id" <> VNull /\ col f c = VStr v.
Proof.
  unfold feed_has. rewrite existsb_exists. split.
  - intros (f & Hf & Hb). apply andb_true_iff in Hb as [Hid Hc].
    exists f. split; [by apply list_elem_of_In|].
    split; [by apply sql_eq_eq|]. split; [by eapply sql_eq_not_null_r|].
    by apply sql_eq_eq.
  - intros (f & Hf & Hid & Hnn & Hc). exists f.
    split; [by apply list_elem_of_In|].
    rewrite Hid, Hc. rewrite sql_eq_refl by done. by rewrite sql_eq_refl.
Qed.

(** X21.  The filters are composed by AND, each on its own: an entry is
    selected when it is on the side of the soft-delete partition that is asked
    for and passes every filter that is set (a flag that is [False] or a name
    that is empty counts as not set): favorited, of a feed with the given
    name, of a feed in the given folder, by the given user. *)
Theorem filtered_query_spec d fl (e : row) :
  e ∈ filtered_query d fl <->
  e ∈ entries d /\
  deleted_side fl e /\
  (f_favorited fl = Some true -> col e "favorited" <> VNull) /\
  (forall n, f_feed_name fl = Some n -> n <> EmptyString ->
     exists f : row, f ∈ feeds d /\ col f "id" = col e "feed_id" /\
                     col e "feed_id" <> VNull /\ col f "name" = VStr n) /\
  (forall n, f_folder fl = Some n -> n <> EmptyString ->
     exists f : row, f ∈ feeds d /\ col f "id" = col e "feed_id" /\
                     col e "feed_id" <> VNull /\ col f "folder" = VStr n) /\
  (forall u, f_username fl = Some u -> u <> EmptyString ->
     col e "username" = VStr u).
Proof.
  unfold filtered_query. rewrite list_elem_of_filter.
  unfold where_filters, deleted_side, is_null.
  rewrite !andb_true_iff.
  split.
  - intros [[[[[Hdel Hfav] Hname] Hfolder] Huser] He].
    split; [done|]. split; [|split; [|split; [|split]]].
    + destruct (truthy_bool (f_deleted fl)).
      * by apply negb_true_iff, bool_decide_eq_false in Hdel.
      * by apply bool_decide_eq_true in Hdel.
    + intros Hf. rewrite Hf in Hfav. simpl in Hfav.
      by apply negb_true_iff, bool_decide_eq_false in Hfav.
    + intros n Hn Hne. rewrite Hn in Hname. simpl in Hname.
      rewrite bool_decide_false in Hname by done. by apply feed_has_spec.
    + intros n Hn Hne. rewrite Hn in Hfolder. simpl in Hfolder.
      rewrite bool_decide_false in Hfolder by done. by apply feed_has_spec.
    + intros u Hu Hne. rewrite Hu in Huser. simpl in Huser.
      rewrite bool_decide_false in Huser by done. by apply sql_eq_eq.
  - intros (He & Hdel & Hfav & Hname & Hfolder & Huser).
    split; [|done]. repeat split.
    + destruct (truthy_bool (f_deleted fl)).
      * by apply negb_true_iff, bool_decide_eq_false.
      * by apply bool_decide_eq_true.
    + destruct (f_favorited fl) as [[|]|]; simpl; try done.
      apply negb_true_iff, bool_decide_eq_false. by apply Hfav.
    + destruct (f_feed_name fl) as [n|]; simpl; [|done].
      case_bool_decide; [done|]. apply feed_has_spec. by apply Hname.
    + destruct (f_folder fl) as [n|]; simpl; [|done].
      case_bool_decide; [done|]. apply feed_has_spec. by apply Hfolder.
    + destruct (f_username fl) as [u|]; simpl; [|done].
      case_bool_decide; [done|]. rewrite (Huser u) by done. by apply sql_eq_refl.
Qed.

(** X22.  [select_pinned] returns the pinned entries that match the filters,
    all of them and each once, the latest pin first. *)
Theorem select_pinned_spec d fl :
  Entry.select_pinned d fl
    ≡ₚ filter (fun e => col e "pinned" <> VNull) (filtered_query d fl) /\
  StronglySorted (fun a b => by_desc "pinned" a b = true) (Entry.select_pinned d fl).
Proof.
  unfold Entry.select_pinned, execute, from_rows. simpl. rewrite drop_0. split.
  - rewrite order_by_perm. apply reflexive_eq, list_filter_iff. intros e.
    unfold is_null. rewrite negb_true_iff, bool_decide_eq_false. done.
  - apply order_by_sorted; [apply by_desc_total | apply by_desc_trans].
Qed.

(** X23.  The chronological listing loses and repeats nothing: a page whose
    limit is at least the number of matching entries is a permutation of the
    matching entries. *)
Theorem chronological_page_complete d lim fl :
  (length (filtered_query d fl) <= lim)%nat ->
  Entry.select_page_chronologically d lim None fl ≡ₚ filtered_query d fl.
Proof.
  intros Hlen. unfold Entry.select_page_chronologically, execute. simpl.
  rewrite drop_0. unfold Entry.chronological.
  rewrite take_ge.
  - apply order_by_perm.
  - by rewrite order_by_perm.
Qed.

Lemma chronological_page_complete_witness :
  Entry.select_page_chronologically four_posts 4 None no_filters
    ≡ₚ filtered_query four_posts no_filters.
Proof. apply chronological_page_complete. vm_compute. lia. Defined.



(** X25.  No entry of the frequency view is ordered by rank 4: the rank of
    the view is that of [Feed.freq_bucket] on the feed's count, one of 1, 2, 3
    and 5, and the entries of one feed share it. *)
Theorem frequency_view_ranks d now per_page lim start_at page fl items (e : row) :
  Entry.select_page_by_frequency d now per_page lim start_at page fl = Ok items ->
  e ∈ items ->
  exists r,
    Entry.subquery_rank d (now - timedelta_days 14) e = Some r /\
    r ∈ [1; 2; 3; 5] /\
    (forall e' : row, col e' "feed_id" = col e "feed_id" ->
       Entry.subquery_rank d (now - timedelta_days 14) e' = Some r).
Proof.
  intros Hitems He.
  destruct (select_page_by_frequency_ranked _ _ _ _ _ _ _ _ _ Hitems He) as [r Hr].
  exists r. split; [done|]. split.
  - unfold Entry.subquery_rank in Hr.
    destruct (find _ _); [|done]. destruct (0 <? _); [|done].
    injection Hr as <-. apply freq_bucket_in_range.
  - intros e' He'. unfold Entry.subquery_rank in *. by rewrite He'.
Qed.

Lemma frequency_view_ranks_witness :
  exists r,
    Entry.subquery_rank timeline (t_ref - timedelta_days 14) quiet_entry = Some r /\
    r ∈ [1; 2; 3; 5] /\
    (forall e' : row, col e' "feed_id" = col quiet_entry "feed_id" ->
       Entry.subquery_rank timeline (t_ref - timedelta_days 14) e' = Some r).
Proof.
  apply (frequency_view_ranks timeline t_ref 20 20 t_ref 3 no_filters
           ((busy_entry <$> seq 41 5) ++ [quiet_entry]) quiet_entry).
  - reflexivity.
  - set_solver.
Defined.

(** ** tasks.py: the per-feed sync tasks *)

(** X26.  [sync_rss_feed] leaves the database as it was, whatever the source
    would answer, when the feed was fetched less than the configured minutes
    ago; and when the fetch raises, the task ends with that exception and the
    database, [last_fetch] and the cache tokens included, is as it was. *)
Theorem sync_rss_feed_unchanged S cfg clock utcnow t_flush utcnow' feed_name d
    (db_feed : row) :
  feed_by_name d feed_name = Some db_feed ->
  (forall last_fetch,
     ts db_feed "last_fetch" = Some last_fetch ->
     utcnow - last_fetch < timedelta_minutes (RSS_SKIP_RECENTLY_UPDATED_MINUTES cfg) ->
     sync_rss_feed S cfg clock utcnow t_flush utcnow' feed_name d = (d, None)) /\
  (forall x,
     synced_recently cfg db_feed utcnow = false ->
     rss_fetch S (col db_feed "url") (col db_feed "last_fetch")
       (RSS_SKIP_OLDER_THAN_DAYS cfg) (col db_feed "etag")
       (col db_feed "modified_header") = Raise x ->
     sync_rss_feed S cfg clock utcnow t_flush utcnow' feed_name d = (d, Some x)).
Proof.
  intros Hfeed. unfold sync_rss_feed. rewrite Hfeed. split.
  - intros lf Hlf Hlt. unfold synced_recently. rewrite Hlf.
    by rewrite (proj2 (Z.ltb_lt _ _) Hlt).
  - intros x Hrecent Hx. by rewrite Hrecent, Hx.
Qed.

Lemma sync_rss_feed_unchanged_witness :
  sync_rss_feed (answering [post_v1]) example_config (fun _ => 0)
    (1000 + timedelta_minutes 59) 0 0 "blog"
    {| feeds := [rss_feed_row]; entries := [] |}
  = ({| feeds := [rss_feed_row]; entries := [] |}, None).
Proof.
  refine (proj1 (sync_rss_feed_unchanged (answering [post_v1]) example_config
            (fun _ => 0) (1000 + timedelta_minutes 59) 0 0 "blog"
            {| feeds := [rss_feed_row]; entries := [] |} rss_feed_row _)
          1000 _ _).
  - reflexivity.
  - reflexivity.
  - vm_compute. reflexivity.
Defined.

(** X27.  After a fetch that answers, [sync_rss_feed] commits the feed's new
    [last_fetch] and cache tokens before it writes any entry: they are in the
    database it leaves also when an entry is refused and the task ends with
    an exception.  The entries of the other feeds are left as they were and
    the unique constraint is kept. *)
Theorem sync_rss_feed_bookkeeping_first S cfg clock utcnow t_flush utcnow'
    feed_name d (db_feed : row) feed_id entries_values feed_data etag modified :
  feed_by_name d feed_name = Some db_feed ->
  synced_recently cfg db_feed utcnow = false ->
  col db_feed "id" = VInt feed_id ->
  rss_fetch S (col db_feed "url") (col db_feed "last_fetch")
    (RSS_SKIP_OLDER_THAN_DAYS cfg) (col db_feed "etag")
    (col db_feed "modified_header")
  = Ok (entries_values, feed_data, etag, modified) ->
  let r := sync_rss_feed S cfg clock utcnow t_flush utcnow' feed_name d in
  fetched_feed S utcnow t_flush db_feed feed_data etag modified ∈ feeds r.1 /\
  r = ({| feeds := feeds r.1;
          entries := (upsert_entries clock utcnow' feed_id entries_values
                        (entries d)).1 |},
       (upsert_entries clock utcnow' feed_id entries_values (entries d)).2) /\
  filter (fun e => col e "feed_id" <> VInt feed_id) (entries r.1)
  = filter (fun e => col e "feed_id" <> VInt feed_id) (entries d) /\
  (unique_keys (entries d) -> unique_keys (entries r.1)).
Proof.
  intros Hfeed Hrecent Hid Hfetch. unfold sync_rss_feed.
  rewrite Hfeed, Hrecent, Hfetch, Hid. cbn [fst snd feeds entries].
  split; [|split; [done|split]].
  - apply list_elem_of_fmap.
    exists db_feed. rewrite Hid. rewrite bool_decide_true by done.
    split; [done|]. unfold feed_by_name in Hfeed.
    apply find_some in Hfeed as [Hin _]. by apply list_elem_of_In.
  - apply upsert_entries_from_other_feeds.
  - apply upsert_entries_from_unique.
Qed.

Lemma sync_rss_feed_bookkeeping_first_witness :
  let r := sync_rss_feed (answering [post_v1]) example_config (fun _ => 50)
             5000 5001 5002 "news"
             {| feeds := [stale_feed_row]; entries := [] |} in
  (fun f => ts f "last_fetch") <$> feeds r.1 = [Some 5000] /\
  (fun f => col f "etag") <$> feeds r.1 = [VStr "etag-2"] /\
  length (entries r.1) = 1%nat.
Proof.
  destruct (sync_rss_feed_bookkeeping_first (answering [post_v1]) example_config
              (fun _ => 50) 5000 5001 5002 "news"
              {| feeds := [stale_feed_row]; entries := [] |} stale_feed_row 2
              [post_v1] "{}" (VStr "etag-2") (VStr "yesterday"))
    as (_ & Hr & _); try reflexivity.
  cbv zeta. rewrite Hr. cbn [fst snd feeds entries]. split; [|split].
  - reflexivity.
  - reflexivity.
  - reflexivity.
Defined.

(** X28.  The cursor [sync_mastodon_feed] asks the source with: when the feed
    has entries, the [remote_id] of one of them whose [remote_updated] is the
    latest of the feed's; when it has none, the configured limit of a first
    page. *)
Theorem mastodon_args_cursor cfg d (db_feed : row) :
  match mastodon_args cfg d db_feed with
  | NewerThan remote_id =>
      exists e : row,
        e ∈ entries d /\
        sql_eq (col e "feed_id") (col db_feed "id") = true /\
        col e "remote_id" = remote_id /\
        (forall e' : row,
           e' ∈ entries d ->
           sql_eq (col e' "feed_id") (col db_feed "id") = true ->
           by_desc "remote_updated" e e' = true)
  | Limit n =>
      n = MASTODON_FETCH_LIMIT cfg /\
      (forall e : row, e ∈ entries d ->
         sql_eq (col e "feed_id") (col db_feed "id") = false)
  end.
Proof.
  unfold mastodon_args, latest_entry.
  set (own := filter (fun e => sql_eq (col e "feed_id") (col db_feed "id") = true)
                (entries d)).
  pose proof (order_by_sorted (by_desc "remote_updated")
                (by_desc_total "remote_updated") (by_desc_trans "remote_updated")
                own) as Hs.
  pose proof (order_by_perm (by_desc "remote_updated") own) as Hp.
  destruct (order_by (by_desc "remote_updated") own) as [|e rest]; simpl.
  - split; [done|]. intros e He.
    apply Permutation_nil_l in Hp. apply not_true_is_false. intros Hown.
    assert (e ∈ own) as Hin by (by apply list_elem_of_filter).
    rewrite <- Hp in Hin. by apply elem_of_nil in Hin.
  - assert (e ∈ own) as Hin by (rewrite <- Hp; left).
    apply list_elem_of_filter in Hin as [Hown Hin].
    exists e. repeat split; try done.
    intros e' He' Hown'.
    assert (e' ∈ e :: rest) as Hin'.
    { rewrite Hp. by apply list_elem_of_filter. }
    apply elem_of_cons in Hin' as [->|Hrest].
    + by destruct (by_desc_total "remote_updated" e e).
    + apply StronglySorted_inv in Hs as [_ Hall].
      rewrite Forall_forall in Hall. by apply Hall.
Qed.

(** ** parser.py: what the sync loop keeps, and the feed icon *)




(** The icon the feed document names: [icon], or [webfeeds_icon] when the
    document has no [icon] key. *)
Definition named_icon (feed : feed_data) : option string :=
  truthy_str (match fd_icon feed with
              | Some i => Some i
              | None => fd_webfeeds_icon feed
              end).

(** X30.  [detect_feed_icon] answers the icon the document names when a HEAD
    request on it succeeds, without looking for favicons.  When the document
    names none, or the request does not succeed, it answers a favicon of the
    feed's site, an [ico] one whenever the site has one, and raises
    [IndexError] when the site has no favicon at all. *)
Theorem detect_feed_icon_choice E feed url :
  (forall i, named_icon feed = Some i -> requests_head_ok E i = Ok true ->
     detect_feed_icon E feed url = Ok i) /\
  (forall favicons,
     named_icon feed = None
     \/ (exists i, named_icon feed = Some i /\ requests_head_ok E i = Ok false) ->
     favicon_get E (default url (fd_link feed)) = Ok favicons ->
     match detect_feed_icon E feed url with
     | Ok u =>
         exists f, f ∈ favicons /\ i_url f = u /\
           ((exists g, g ∈ favicons /\ i_format g = "ico") -> i_format f = "ico")
     | Raise x => x = IndexError /\ favicons = []
     end).
Proof.
  unfold detect_feed_icon, named_icon. split.
  - intros i -> ->. done.
  - intros favicons Hicon Hfav.
    set (fallback := and_then (favicon_get E (default url (fd_link feed))) _).
    assert (match fallback with
            | Ok u =>
                exists f, f ∈ favicons /\ i_url f = u /\
                  ((exists g, g ∈ favicons /\ i_format g = "ico") -> i_format f = "ico")
            | Raise x => x = IndexError /\ favicons = []
            end) as Hfallback.
    { unfold fallback. rewrite Hfav. cbn [and_then].
      destruct (filter (fun f => i_format f = "ico") favicons) as [|ico icos] eqn:Hico.
      - destruct favicons as [|f favicons]; simpl; [done|].
        exists f. split; [left|]. split; [done|].
        intros (g & Hg & Hfmt).
        assert (g ∈ filter (fun f => i_format f = "ico") (f :: favicons)) as Hin
          by (by apply list_elem_of_filter).
        rewrite Hico in Hin. by apply elem_of_nil in Hin.
      - simpl. exists ico.
        assert (ico ∈ filter (fun f => i_format f = "ico") favicons) as Hin
          by (rewrite Hico; left).
        apply list_elem_of_filter in Hin as [Hfmt Hin]. done. }
    destruct Hicon as [->|(i & -> & ->)]; exact Hfallback.
Qed.
